(** * requests.structures: the data structures that power Requests

    A shallow embedding of [src/requests/structures.py] and the proofs of
    its specification.

    - Python objects are mutable and handled by reference: every class gets
      a heap of objects ([list obj], a reference is an index), and a method
      is a computation in a small state-and-exception monad over that heap.
    - Python's [dict] and [OrderedDict] remember insertion order; they are
      association lists updated in place ([PyDict]).
    - [str.lower] is a built-in: the development is parametric in it
      ([lower]), and the concrete scenarios use its restriction to ASCII
      ([str_lower]). *)

From Stdlib Require Import ZArith Lia.
From Stdlib Require DecimalString DecimalZ.
From stdpp Require Import base list strings.

(** ** Exceptions and outcomes *)

Inductive exn :=
  | KeyError (key : string)
  | AttributeError
  | TypeError.

Inductive outcome (A : Type) :=
  | Return (a : A)
  | Raise (e : exn).
Arguments Return {A} a.
Arguments Raise {A} e.

(** A binary special method answers, or returns [NotImplemented]. *)
Inductive answer (A : Type) :=
  | NotImplemented
  | Answer (a : A).
Arguments NotImplemented {A}.
Arguments Answer {A} a.

(** A reference is an index in the heap. *)
Abbreviation loc := nat.

(** ** The monad of methods: a heap threaded through, exceptions kept apart.
    An exception leaves the heap as it was when it was raised. *)

Module Heap.
Section monad.
Context {O : Type}.

Definition M (A : Type) : Type := list O → outcome A * list O.

Definition ret {A} (a : A) : M A := λ h, (Return a, h).

Definition raise {A} (e : exn) : M A := λ h, (Raise e, h).

Definition bind {A B} (m : M A) (f : A → M B) : M B :=
  λ h, match m h with
       | (Return a, h') => f a h'
       | (Raise e, h') => (Raise e, h')
       end.

(** Object creation: the new object gets the next free reference. *)
Definition alloc (o : O) : M loc := λ h, (Return (length h), h ++ [o]).

(** Dereference; a reference to nothing is not a Python value, reading it
    is given [TypeError] so that methods are total. *)
Definition load (l : loc) : M O :=
  λ h, match h !! l with
       | Some o => (Return o, h)
       | None => (Raise TypeError, h)
       end.

Definition store (l : loc) (o : O) : M unit :=
  λ h, (Return tt, <[l := o]> h).

(** An outcome computed without the heap, e.g. by a dictionary. *)
Definition lift {A} (r : outcome A) : M A := λ h, (r, h).

(** [try: m  except KeyError: handler] *)
Definition except_KeyError {A} (m : M A) (handler : M A) : M A :=
  λ h, match m h with
       | (Raise (KeyError _), h') => handler h'
       | r => r
       end.

(** [for x in xs: body x] *)
Fixpoint for_each {A} (xs : list A) (body : A → M unit) : M unit :=
  match xs with
  | [] => ret tt
  | x :: xs' => bind (body x) (λ _, for_each xs' body)
  end.

(** [[f x for x in xs]] *)
Fixpoint collect {A B} (xs : list A) (f : A → M B) : M (list B) :=
  match xs with
  | [] => ret []
  | x :: xs' => bind (f x) (λ b, bind (collect xs' f) (λ bs, ret (b :: bs)))
  end.
End monad.
Arguments M : clear implicits.
End Heap.

#[global] Instance heap_ret {O} : MRet (Heap.M O) := λ A, Heap.ret.
#[global] Instance heap_bind {O} : MBind (Heap.M O) := λ A B f m, Heap.bind m f.

(** ** [str.lower], restricted to ASCII *)

Definition ascii_lower (c : Ascii.ascii) : Ascii.ascii :=
  let n := Ascii.nat_of_ascii c in
  if (65 <=? n)%nat && (n <=? 90)%nat then Ascii.ascii_of_nat (n + 32) else c.

Fixpoint str_lower (s : string) : string :=
  match s with
  | EmptyString => EmptyString
  | String c s' => String (ascii_lower c) (str_lower s')
  end.

(** ** [str(n)] of an integer: decimal digits, a minus sign when negative *)

Definition str_of_int (n : Z) : string :=
  DecimalString.NilZero.string_of_int (Z.to_int n).

(** The characters of a string, one by one. *)
Fixpoint chars (s : string) : list Ascii.ascii :=
  match s with
  | EmptyString => []
  | String c s' => c :: chars s'
  end.

(** ** Python's insertion-ordered dictionaries ([dict], [OrderedDict])

    Keys are strings throughout this module. A dictionary is the list of its
    items in insertion order. *)

Module PyDict.
Section dict.
Context {A : Type}.

Definition t := list (string * A).

(** The item stored under [k], if any. *)
Fixpoint lookup (d : t) (k : string) : option A :=
  match d with
  | [] => None
  | (k', a) :: d' => if decide (k' = k) then Some a else lookup d' k
  end.

(** [d[k] = a]: an existing key keeps its place, a new key goes last. *)
Fixpoint set (d : t) (k : string) (a : A) : t :=
  match d with
  | [] => [(k, a)]
  | (k', a') :: d' =>
      if decide (k' = k) then (k', a) :: d' else (k', a') :: set d' k a
  end.

Fixpoint remove (d : t) (k : string) : t :=
  match d with
  | [] => []
  | (k', a') :: d' =>
      if decide (k' = k) then d' else (k', a') :: remove d' k
  end.

(** [d[k]] *)
Definition __getitem__ (d : t) (k : string) : outcome A :=
  match lookup d k with
  | Some a => Return a
  | None => Raise (KeyError k)
  end.

(** [del d[k]] *)
Definition __delitem__ (d : t) (k : string) : outcome t :=
  match lookup d k with
  | Some _ => Return (remove d k)
  | None => Raise (KeyError k)
  end.

(** [d.get(k, default)] *)
Definition get (d : t) (k : string) (default : A) : A :=
  match lookup d k with
  | Some a => a
  | None => default
  end.

Definition keys (d : t) : list string := d.*1.
Definition values (d : t) : list A := d.*2.

(** [dict(pairs)] *)
Definition of_pairs (ps : list (string * A)) : t :=
  foldl (λ d p, set d p.1 p.2) [] ps.

(** [d1 == d2] on plain dicts: same size, and every item of [d1] is found
    in [d2] with an equal value; order plays no part. *)
Definition eqb `{EqDecision A} (d1 d2 : t) : bool :=
  bool_decide (length d1 = length d2)
  && forallb (λ p, bool_decide (lookup d2 p.1 = Some p.2)) d1.
End dict.
Arguments t : clear implicits.
End PyDict.

(** ** class CaseInsensitiveDict(MutableMapping) *)

Module CaseInsensitiveDict.
Section cid.
Context {V : Type} `{EqDecision V}.
Variable lower : string → string.

(** The objects a method of the class may meet. An instance holds, in its
    attribute [_store], a reference to an [OrderedDict] of its own; the
    attribute is unset until [__init__] runs. The private [OrderedDict] of
    an instance is never handed to a method as an argument. *)
Inductive obj :=
  | CIDict (_store : option loc)                  (* a CaseInsensitiveDict *)
  | OrderedDict (d : PyDict.t (string * V))       (* the store of one *)
  | Dict (d : PyDict.t V)                         (* a plain dict *)
  | Other.                                        (* not a Mapping *)

(** The [data] argument of the constructor. *)
Inductive data :=
  | DataNone
  | DataRef (l : loc)
  | DataPairs (ps : list (string * V)).

Local Abbreviation M := (Heap.M obj).

(** [self._store] *)
Definition get_store (self : loc) : M loc :=
  o ← Heap.load self;
  match o with
  | CIDict (Some l) => mret l
  | CIDict None => Heap.raise AttributeError
  | _ => Heap.raise TypeError
  end.

(** [self._store = l] *)
Definition set_store (self : loc) (l : loc) : M unit :=
  o ← Heap.load self;
  match o with
  | CIDict _ => Heap.store self (CIDict (Some l))
  | _ => Heap.raise TypeError
  end.

(** The items of the [OrderedDict] at [l] *)
Definition od_load (l : loc) : M (PyDict.t (string * V)) :=
  o ← Heap.load l;
  match o with
  | OrderedDict d => mret d
  | _ => Heap.raise TypeError
  end.

Definition __setitem__ (self : loc) (key : string) (value : V) : M unit :=
  l ← get_store self;
  d ← od_load l;
  Heap.store l (OrderedDict (PyDict.set d (lower key) (key, value))).

Definition __getitem__ (self : loc) (key : string) : M V :=
  l ← get_store self;
  d ← od_load l;
  kv ← Heap.lift (PyDict.__getitem__ d (lower key));
  mret kv.2.

Definition __delitem__ (self : loc) (key : string) : M unit :=
  l ← get_store self;
  d ← od_load l;
  d' ← Heap.lift (PyDict.__delitem__ d (lower key));
  Heap.store l (OrderedDict d').

(** The keys the generator yields when it is run to its end. *)
Definition __iter__ (self : loc) : M (list string) :=
  l ← get_store self;
  d ← od_load l;
  mret ((PyDict.values d).*1).

Definition __len__ (self : loc) : M nat :=
  l ← get_store self;
  d ← od_load l;
  mret (length d).

Definition lower_items (self : loc) : M (list (string * V)) :=
  l ← get_store self;
  d ← od_load l;
  mret ((λ p, (p.1, p.2.2)) <$> d).

(** *** Inherited from [Mapping] and [MutableMapping] *)

Definition __contains__ (self : loc) (key : string) : M bool :=
  Heap.except_KeyError (__getitem__ self key ≫= λ _, mret true) (mret false).

Definition keys (self : loc) : M (list string) := __iter__ self.

Definition items (self : loc) : M (list (string * V)) :=
  ks ← __iter__ self;
  Heap.collect ks (λ key, v ← __getitem__ self key; mret (key, v)).

Definition values (self : loc) : M (list V) :=
  ks ← __iter__ self;
  Heap.collect ks (λ key, __getitem__ self key).

(** [Mapping.get(self, key, default)] *)
Definition get (self : loc) (key : string) (default : V) : M V :=
  Heap.except_KeyError (__getitem__ self key) (mret default).

(** [isinstance(o, Mapping)] *)
Definition is_Mapping (o : obj) : bool :=
  match o with
  | CIDict _ | OrderedDict _ | Dict _ => true
  | Other => false
  end.

(** [iter(other)] and [other[key]] on any object *)
Definition iter_of (other : loc) : M (list string) :=
  o ← Heap.load other;
  match o with
  | CIDict _ => __iter__ other
  | OrderedDict d => mret (PyDict.keys d)
  | Dict d => mret (PyDict.keys d)
  | Other => Heap.raise TypeError
  end.

Definition getitem_of (other : loc) (key : string) : M V :=
  o ← Heap.load other;
  match o with
  | CIDict _ => __getitem__ other key
  | Dict d => Heap.lift (PyDict.__getitem__ d key)
  | OrderedDict _ | Other => Heap.raise TypeError
  end.

(** [MutableMapping.update(self, other, **kwds)] *)
Definition update (self : loc) (other : data)
    (kwds : list (string * V)) : M unit :=
  match other with
  | DataNone => Heap.raise TypeError
  | DataRef l =>
      ks ← iter_of l;
      Heap.for_each ks (λ key, v ← getitem_of l key; __setitem__ self key v)
  | DataPairs ps =>
      Heap.for_each ps (λ p, __setitem__ self p.1 p.2)
  end;;
  Heap.for_each kwds (λ p, __setitem__ self p.1 p.2).

Definition __init__ (self : loc) (data0 : data)
    (kwargs : list (string * V)) : M unit :=
  l ← Heap.alloc (OrderedDict []);
  set_store self l;;
  data1 ← match data0 with
          | DataNone => d ← Heap.alloc (Dict []); mret (DataRef d)
          | _ => mret data0
          end;
  update self data1 kwargs.

(** [CaseInsensitiveDict(data, **kwargs)]: a new instance, initialised. *)
Definition new (data0 : data) (kwargs : list (string * V)) : M loc :=
  self ← Heap.alloc (CIDict None);
  __init__ self data0 kwargs;;
  mret self.

Definition __eq__ (self other : loc) : M (answer bool) :=
  o ← Heap.load other;
  if is_Mapping o then
    other' ← new (DataRef other) [];
    a ← lower_items self;
    b ← lower_items other';
    mret (Answer (PyDict.eqb (PyDict.of_pairs a) (PyDict.of_pairs b)))
  else Heap.ret NotImplemented.

Definition copy (self : loc) : M loc :=
  l ← get_store self;
  d ← od_load l;
  new (DataPairs (PyDict.values d)) [].

(** *** What the proofs speak of *)

(** [self] is an initialised instance whose store, at [l], holds [st]. *)
Definition cid_at (h : list obj) (self l : loc)
    (st : PyDict.t (string * V)) : Prop :=
  h !! self = Some (CIDict (Some l)) ∧ h !! l = Some (OrderedDict st).

(** The entries of the instance at [self]: lowercased key, recorded key and
    value, in the order of iteration. *)
Definition entries (h : list obj) (self : loc)
    : option (PyDict.t (string * V)) :=
  match h !! self with
  | Some (CIDict (Some l)) =>
      match h !! l with
      | Some (OrderedDict st) => Some st
      | _ => None
      end
  | _ => None
  end.

(** The heap once [new] has run on [h] and left [st] in the new store. *)
Definition grown (h : list obj) (st : PyDict.t (string * V)) : list obj :=
  h ++ [CIDict (Some (S (length h))); OrderedDict st].

(** The store after [for key, value in ps: self[key] = value]. *)
Definition fill (st : PyDict.t (string * V)) (ps : list (string * V))
    : PyDict.t (string * V) :=
  foldl (λ d p, PyDict.set d (lower p.1) p) st ps.

(** The invariant of [_store]: one entry per lowercased key, and the key of
    an entry is its recorded key, lowercased. *)
Definition wf (st : PyDict.t (string * V)) : Prop :=
  NoDup (PyDict.keys st) ∧ Forall (λ e, e.1 = lower e.2.1) st.

(** The lowercased-key-to-value mapping of a store. *)
Definition folded (st : PyDict.t (string * V)) (f : string) : option V :=
  snd <$> PyDict.lookup st f.

(** A later [self[key] = value] or [del self[key]], and a run of them, each
    on the heap the one before left, whether it raised or not. *)
Inductive mutation :=
  | SetItem (key : string) (value : V)
  | DelItem (key : string).

Definition mutate (self : loc) (m : mutation) : M unit :=
  match m with
  | SetItem key value => __setitem__ self key value
  | DelItem key => __delitem__ self key
  end.

Definition mutations (self : loc) (ms : list mutation) (h : list obj)
    : list obj :=
  foldl (λ h m, (mutate self m h).2) h ms.

End cid.
End CaseInsensitiveDict.

(** ** class LookupDict(dict) *)

Module LookupDict.

Inductive pyval :=
  | PyNone
  | PyInt (n : Z)
  | PyStr (s : string).

(** An instance has an attribute namespace, [__dict__], and, being a
    [dict], items of its own. *)
Record instance := Instance {
  __dict__ : PyDict.t pyval;
  dict_items : PyDict.t pyval
}.

(** [self.attr = value] *)
Definition __setattr__ (self : instance) (attr : string) (value : pyval)
    : instance :=
  {| __dict__ := PyDict.set (__dict__ self) attr value;
     dict_items := dict_items self |}.

(** [dict.__setitem__], which the class does not override: [self[key] = value] *)
Definition __setitem__ (self : instance) (key : string) (value : pyval)
    : instance :=
  {| __dict__ := __dict__ self;
     dict_items := PyDict.set (dict_items self) key value |}.

(** [super().__init__()], without arguments, adds no item. *)
Definition dict_init (self : instance) : instance := self.

Definition __init__ (self : instance) (name : pyval) : instance :=
  let self := __setattr__ self "name" name in
  dict_init self.

(** [LookupDict(name)]; [LookupDict()] is [new PyNone]. *)
Definition new (name : pyval) : instance :=
  __init__ {| __dict__ := []; dict_items := [] |} name.

(** [str(v)], as an f-string formats a value *)
Definition str_of (v : pyval) : string :=
  match v with
  | PyNone => "None"
  | PyInt n => str_of_int n
  | PyStr s => s
  end.

(** [self.name] is looked up in the attribute namespace; neither [dict] nor
    the class has an attribute of that name to fall back on. *)
Definition __repr__ (self : instance) : outcome string :=
  match PyDict.lookup (__dict__ self) "name" with
  | Some name => Return ("<lookup '" +:+ str_of name +:+ "'>")
  | None => Raise AttributeError
  end.

Definition __getitem__ (self : instance) (key : string) : outcome pyval :=
  Return (PyDict.get (__dict__ self) key PyNone).

(** [get(key)] is [get key PyNone]. *)
Definition get (self : instance) (key : string) (default : pyval)
    : outcome pyval :=
  Return (PyDict.get (__dict__ self) key default).

End LookupDict.

(** ** class NetworkTraffic *)

Module NetworkTraffic.

Inductive obj :=
  | Traffic (upload download : Z)   (* a NetworkTraffic *)
  | Other.                          (* anything else *)

Local Abbreviation M := (Heap.M obj).

Definition is_NetworkTraffic (o : obj) : bool :=
  match o with
  | Traffic _ _ => true
  | Other => false
  end.

(** [self.upload], [self.download] and the assignments to them *)
Definition get_upload (self : loc) : M Z :=
  o ← Heap.load self;
  match o with
  | Traffic u _ => mret u
  | Other => Heap.raise TypeError
  end.

Definition get_download (self : loc) : M Z :=
  o ← Heap.load self;
  match o with
  | Traffic _ d => mret d
  | Other => Heap.raise TypeError
  end.

Definition set_upload (self : loc) (u : Z) : M unit :=
  o ← Heap.load self;
  match o with
  | Traffic _ d => Heap.store self (Traffic u d)
  | Other => Heap.raise TypeError
  end.

Definition set_download (self : loc) (d : Z) : M unit :=
  o ← Heap.load self;
  match o with
  | Traffic u _ => Heap.store self (Traffic u d)
  | Other => Heap.raise TypeError
  end.

Definition __init__ (self : loc) (upload download : Z) : M unit :=
  set_upload self upload;;
  set_download self download.

(** [NetworkTraffic(upload, download)]; both default to 0. *)
Definition new (upload download : Z) : M loc :=
  self ← Heap.alloc (Traffic 0 0);
  __init__ self upload download;;
  mret self.

Definition __repr__ (self : loc) : M string :=
  u ← get_upload self;
  d ← get_download self;
  mret ("NetworkTraffic(upload=" +:+ str_of_int u +:+ ", download="
        +:+ str_of_int d +:+ ")").

Definition __add__ (self other : loc) : M (answer loc) :=
  o ← Heap.load other;
  if negb (is_NetworkTraffic o) then Heap.ret NotImplemented
  else
    su ← get_upload self;
    ou ← get_upload other;
    sd ← get_download self;
    od ← get_download other;
    r ← new (su + ou) (sd + od);
    mret (Answer r).

Definition __iadd__ (self other : loc) : M (answer loc) :=
  o ← Heap.load other;
  if negb (is_NetworkTraffic o) then Heap.ret NotImplemented
  else
    su ← get_upload self;
    ou ← get_upload other;
    set_upload self (su + ou);;
    sd ← get_download self;
    od ← get_download other;
    set_download self (sd + od);;
    mret (Answer self).

(** [x + y] and [x += y] as the interpreter runs them: the special method
    is called, and [NotImplemented] from it ends in [TypeError], no object
    here having a reflected method. [x += y] rebinds [x] to what
    [__iadd__] returned. *)
Definition add (x y : loc) : M loc :=
  r ← __add__ x y;
  match r with
  | Answer l => mret l
  | NotImplemented => Heap.raise TypeError
  end.

Definition iadd (x y : loc) : M loc :=
  r ← __iadd__ x y;
  match r with
  | Answer l => mret l
  | NotImplemented => Heap.raise TypeError
  end.

(** [for r in rs: total += r], and the same with [total = total + r];
    the result is the object [total] is bound to in the end. *)
Fixpoint iadd_all (total : loc) (rs : list loc) : M loc :=
  match rs with
  | [] => mret total
  | r :: rs' => t ← iadd total r; iadd_all t rs'
  end.

Fixpoint add_all (total : loc) (rs : list loc) : M loc :=
  match rs with
  | [] => mret total
  | r :: rs' => t ← add total r; add_all t rs'
  end.

(** The two fields of the object at [l], as a value. *)
Definition fields (h : list obj) (l : loc) : option (Z * Z) :=
  match h !! l with
  | Some (Traffic u d) => Some (u, d)
  | _ => None
  end.

(** The fields of the object an expression evaluates to. *)
Definition value_of (e : M loc) (h : list obj) : option (Z * Z) :=
  match e h with
  | (Return l, h') => fields h' l
  | (Raise _, _) => None
  end.

End NetworkTraffic.

(** * Proofs *)

(** ** Facts about dictionaries *)

Module PyDictFacts.
Section facts.
Context {A : Type}.
Implicit Types (d : PyDict.t A) (k : string) (a : A).

Lemma lookup_Some_elem d k a : PyDict.lookup d k = Some a → (k, a) ∈ d.
Proof.
  induction d as [|[k' a'] d IH]; simpl; [done|].
  case_decide; intros E.
  - injection E as ->. subst. left.
  - right. auto.
Qed.

Lemma lookup_None_keys d k : PyDict.lookup d k = None ↔ k ∉ PyDict.keys d.
Proof.
  unfold PyDict.keys. induction d as [|[k' a'] d IH]; simpl.
  - split; [intros _; apply not_elem_of_nil | done].
  - rewrite not_elem_of_cons. case_decide.
    + subst. split; [done | intros [? _]; done].
    + rewrite IH. split; [by intros ? | by intros [_ ?]].
Qed.

Lemma lookup_is_Some_keys d k : is_Some (PyDict.lookup d k) ↔ k ∈ PyDict.keys d.
Proof.
  destruct (PyDict.lookup d k) eqn:E.
  - split; [intros _ | eauto].
    apply lookup_Some_elem in E. unfold PyDict.keys.
    apply list_elem_of_fmap. by exists (k, a).
  - apply lookup_None_keys in E. split; [intros [? ?]; done | done].
Qed.

Lemma elem_lookup d k a :
  NoDup (PyDict.keys d) → (k, a) ∈ d → PyDict.lookup d k = Some a.
Proof.
  unfold PyDict.keys. induction d as [|[k' a'] d IH]; simpl.
  - intros _ E. by apply elem_of_nil in E.
  - rewrite NoDup_cons. intros [Hk Hd] E. apply elem_of_cons in E.
    case_decide as Hkk; destruct E as [E | E].
    + by injection E as _ ->.
    + subst. exfalso. apply Hk. apply list_elem_of_fmap. by exists (k, a).
    + by injection E as -> _.
    + auto.
Qed.

Lemma lookup_set_eq d k a : PyDict.lookup (PyDict.set d k a) k = Some a.
Proof.
  induction d as [|[k' a'] d IH]; simpl.
  - by rewrite decide_True.
  - case_decide; simpl.
    + by rewrite decide_True.
    + by rewrite decide_False.
Qed.

Lemma lookup_set_ne d k k' a :
  k ≠ k' → PyDict.lookup (PyDict.set d k a) k' = PyDict.lookup d k'.
Proof.
  intros Hne. induction d as [|[k0 a0] d IH]; simpl.
  - by rewrite decide_False.
  - case_decide; simpl; simplify_eq.
    + by rewrite !decide_False.
    + by rewrite IH.
Qed.

(** A new key goes last. *)
Lemma set_absent d k a :
  PyDict.lookup d k = None → PyDict.set d k a = d ++ [(k, a)].
Proof.
  induction d as [|[k' a'] d IH]; simpl; [done|].
  case_decide; [done|]. intros E. by rewrite IH.
Qed.

(** An existing key keeps its place. *)
Lemma set_present d k a0 a :
  PyDict.lookup d k = Some a0 →
  ∃ d1 d2, d = d1 ++ (k, a0) :: d2 ∧ (k ∉ PyDict.keys d1)
           ∧ PyDict.set d k a = d1 ++ (k, a) :: d2.
Proof.
  induction d as [|[k' a'] d IH]; simpl; [done|].
  case_decide; intros E; simplify_eq.
  - exists [], d. split_and!; [done | apply not_elem_of_nil | done].
  - destruct (IH E) as (d1 & d2 & -> & Hk & ->).
    exists ((k', a') :: d1), d2. split_and!; [done | | done].
    unfold PyDict.keys in *. simpl. rewrite not_elem_of_cons. done.
Qed.

Lemma keys_set d k a :
  PyDict.keys (PyDict.set d k a)
  = match PyDict.lookup d k with
    | Some _ => PyDict.keys d
    | None => PyDict.keys d ++ [k]
    end.
Proof.
  unfold PyDict.keys. induction d as [|[k' a'] d IH]; csimpl; [done|].
  case_decide; csimpl; simplify_eq; [done|].
  rewrite IH. by destruct (PyDict.lookup d k).
Qed.

Lemma length_set d k a :
  length (PyDict.set d k a)
  = match PyDict.lookup d k with
    | Some _ => length d
    | None => S (length d)
    end.
Proof.
  induction d as [|[k' a'] d IH]; simpl; [done|].
  case_decide; simpl; [done|]. rewrite IH. by destruct (PyDict.lookup d k).
Qed.

Lemma NoDup_set d k a :
  NoDup (PyDict.keys d) → NoDup (PyDict.keys (PyDict.set d k a)).
Proof.
  intros Hd. rewrite keys_set. destruct (PyDict.lookup d k) eqn:E; [done|].
  apply NoDup_app. split_and!; [done | | apply NoDup_singleton].
  intros x Hx Hx'. apply list_elem_of_singleton in Hx' as ->.
  by apply lookup_None_keys in E.
Qed.

Lemma keys_remove_sub d k x :
  x ∈ PyDict.keys (PyDict.remove d k) → x ∈ PyDict.keys d.
Proof.
  unfold PyDict.keys. induction d as [|[k' a'] d IH]; simpl; [done|].
  case_decide; simpl.
  - intros ?. by right.
  - rewrite !elem_of_cons. intros [-> | ?]; [by left | right; auto].
Qed.

Lemma NoDup_remove d k :
  NoDup (PyDict.keys d) → NoDup (PyDict.keys (PyDict.remove d k)).
Proof.
  unfold PyDict.keys. induction d as [|[k' a'] d IH]; simpl; [done|].
  rewrite NoDup_cons. intros [Hk Hd]. case_decide; simpl; [done|].
  apply NoDup_cons. split; [|auto].
  intros Hin. apply Hk. by apply (keys_remove_sub d k).
Qed.

Lemma lookup_remove_eq d k :
  NoDup (PyDict.keys d) → PyDict.lookup (PyDict.remove d k) k = None.
Proof.
  unfold PyDict.keys. induction d as [|[k' a'] d IH]; simpl; [done|].
  rewrite NoDup_cons. intros [Hk Hd]. case_decide; simpl; simplify_eq.
  - by apply lookup_None_keys.
  - rewrite decide_False; auto.
Qed.

Lemma lookup_remove_ne d k k' :
  k ≠ k' → PyDict.lookup (PyDict.remove d k) k' = PyDict.lookup d k'.
Proof.
  intros Hne. induction d as [|[k0 a0] d IH]; simpl; [done|].
  case_decide; simpl; simplify_eq.
  - by rewrite decide_False.
  - by rewrite IH.
Qed.

(** Deleting a key leaves the other items in their order. *)
Lemma remove_present d k a0 :
  PyDict.lookup d k = Some a0 →
  ∃ d1 d2, d = d1 ++ (k, a0) :: d2 ∧ (k ∉ PyDict.keys d1)
           ∧ PyDict.remove d k = d1 ++ d2.
Proof.
  induction d as [|[k' a'] d IH]; simpl; [done|].
  case_decide; intros E; simplify_eq.
  - exists [], d. split_and!; [done | apply not_elem_of_nil | done].
  - destruct (IH E) as (d1 & d2 & -> & Hk & ->).
    exists ((k', a') :: d1), d2. split_and!; [done | | done].
    unfold PyDict.keys in *. simpl. rewrite not_elem_of_cons. done.
Qed.

Lemma length_remove d k a0 :
  PyDict.lookup d k = Some a0 → S (length (PyDict.remove d k)) = length d.
Proof.
  intros (d1 & d2 & -> & _ & ->)%remove_present.
  rewrite !length_app. simpl. lia.
Qed.

(** [dict(pairs)] of pairs with distinct keys is the list of pairs. *)
Lemma foldl_set_fresh d (ps : list (string * A)) :
  NoDup (PyDict.keys (d ++ ps)) →
  foldl (λ d p, PyDict.set d p.1 p.2) d ps = d ++ ps.
Proof.
  revert d. induction ps as [|[k a] ps IH]; intros d Hnd; simpl.
  - by rewrite app_nil_r.
  - rewrite set_absent.
    + rewrite IH; rewrite <- app_assoc; done.
    + apply lookup_None_keys. unfold PyDict.keys in *.
      rewrite fmap_app in Hnd. apply NoDup_app in Hnd as (_ & Hdis & _).
      intros Hin. apply (Hdis k Hin). simpl. left.
Qed.

Lemma of_pairs_NoDup (ps : list (string * A)) :
  NoDup (PyDict.keys ps) → PyDict.of_pairs ps = ps.
Proof. intros Hnd. unfold PyDict.of_pairs. by rewrite foldl_set_fresh. Qed.

(** Equality of plain dicts is equality of their lookups. *)
Lemma eqb_true `{EqDecision A} d1 d2 :
  NoDup (PyDict.keys d1) → NoDup (PyDict.keys d2) →
  PyDict.eqb d1 d2 = true ↔ ∀ k, PyDict.lookup d1 k = PyDict.lookup d2 k.
Proof.
  intros Hd1 Hd2. unfold PyDict.eqb.
  rewrite andb_true_iff, bool_decide_eq_true, forallb_forall. split.
  - intros [Hlen Hall] k.
    assert (Hsub : ∀ k a, PyDict.lookup d1 k = Some a →
                          PyDict.lookup d2 k = Some a).
    { intros k' a E%lookup_Some_elem%list_elem_of_In.
      apply Hall in E. by apply bool_decide_eq_true in E. }
    destruct (PyDict.lookup d1 k) eqn:E1; [symmetry; auto|].
    assert (Hperm : PyDict.keys d1 ≡ₚ PyDict.keys d2).
    { apply submseteq_length_Permutation.
      - apply NoDup_submseteq; [done|]. intros x Hx.
        apply lookup_is_Some_keys in Hx as [a Ha].
        apply lookup_is_Some_keys. eauto.
      - unfold PyDict.keys. rewrite !length_fmap. lia. }
    symmetry. apply lookup_None_keys. rewrite <- Hperm.
    by apply lookup_None_keys.
  - intros Heq. split.
    + assert (Hperm : PyDict.keys d1 ≡ₚ PyDict.keys d2).
      { apply NoDup_Permutation; [done..|]. intros x.
        rewrite <- !lookup_is_Some_keys. by rewrite Heq. }
      apply Permutation_length in Hperm. unfold PyDict.keys in Hperm.
      by rewrite !length_fmap in Hperm.
    + intros [k a] Hin%list_elem_of_In. apply bool_decide_eq_true. simpl.
      rewrite <- Heq. by apply elem_lookup.
Qed.

End facts.
End PyDictFacts.

(** ** Running the monad *)

Ltac run :=
  unfold mbind, mret, heap_bind, heap_ret, Heap.bind, Heap.ret, Heap.load,
    Heap.store, Heap.lift, Heap.raise, Heap.alloc, Heap.except_KeyError;
  simpl.

Module HeapFacts.
Section facts.
Context {O : Type}.
Implicit Types (h : list O) (l : loc) (o : O).

(** The object just created is the last of the heap. *)
Lemma lookup_fresh h o : (h ++ [o]) !! length h = Some o.
Proof. rewrite lookup_app_r; [|lia]. by rewrite Nat.sub_diag. Qed.

Lemma lookup_old h o l o' : h !! l = Some o' → (h ++ [o]) !! l = Some o'.
Proof. intros E. by apply lookup_app_l_Some. Qed.

Lemma insert_fresh h o o' : <[length h := o']> (h ++ [o]) = h ++ [o'].
Proof.
  rewrite insert_app_r_alt; [|lia]. by rewrite Nat.sub_diag.
Qed.

Lemma lookup_Some_ne_fresh h l o : h !! l = Some o → l ≠ length h.
Proof. intros E%lookup_lt_Some. lia. Qed.

Lemma lookup_insert_same h l o o' :
  h !! l = Some o → <[l := o']> h !! l = Some o'.
Proof. intros E%lookup_lt_Some. by apply list_lookup_insert_eq. Qed.

Lemma insert_insert_same h l o o' : <[l := o']> (<[l := o]> h) = <[l := o']> h.
Proof. apply list_insert_insert_eq. Qed.

(** An instance and its store, created one after the other. *)
Lemma lookup_fresh2_fst h o1 o2 : ((h ++ [o1]) ++ [o2]) !! length h = Some o1.
Proof. apply lookup_app_l_Some, lookup_fresh. Qed.

Lemma insert_fresh2_fst h o1 o2 o1' :
  <[length h := o1']> ((h ++ [o1]) ++ [o2]) = h ++ [o1'; o2].
Proof.
  rewrite <- app_assoc. rewrite insert_app_r_alt; [|lia].
  by rewrite Nat.sub_diag.
Qed.

Lemma lookup_pair_fst h o1 o2 : (h ++ [o1; o2]) !! length h = Some o1.
Proof. rewrite lookup_app_r; [|lia]. by rewrite Nat.sub_diag. Qed.

Lemma lookup_pair_snd h o1 o2 : (h ++ [o1; o2]) !! S (length h) = Some o2.
Proof.
  rewrite lookup_app_r; [|lia]. by replace (S (length h) - length h) with 1 by lia.
Qed.

Lemma lookup_pair_old h o1 o2 l o :
  h !! l = Some o → (h ++ [o1; o2]) !! l = Some o.
Proof. intros E. by apply lookup_app_l_Some. Qed.

Lemma insert_pair_snd h o1 o2 o2' :
  <[S (length h) := o2']> (h ++ [o1; o2]) = h ++ [o1; o2'].
Proof.
  rewrite insert_app_r_alt; [|lia].
  by replace (S (length h) - length h) with 1 by lia.
Qed.

Lemma length_snoc h o : length (h ++ [o]) = S (length h).
Proof. rewrite length_app. simpl. lia. Qed.

End facts.
End HeapFacts.

(** ** CaseInsensitiveDict: what each method computes *)

Module CaseInsensitiveDictFacts.
Import CaseInsensitiveDict.
Section facts.
Context {V : Type} `{EqDecision V}.
Variable lower : string → string.
Implicit Types (h : list (@obj V)) (self other l : loc)
  (st : PyDict.t (string * V)) (key : string) (value : V).

Lemma cid_at_ne h self l st : cid_at h self l st → self ≠ l.
Proof. intros [Hs Hl] ->. congruence. Qed.

Lemma cid_at_entries h self l st : cid_at h self l st → entries h self = Some st.
Proof. intros [Hs Hl]. unfold entries. by rewrite Hs, Hl. Qed.

(** Writing the store of an instance keeps it an instance. *)
Lemma cid_at_store h self l st st' :
  cid_at h self l st → cid_at (<[l := OrderedDict st']> h) self l st'.
Proof.
  intros Hc. pose proof (cid_at_ne _ _ _ _ Hc) as Hne. destruct Hc as [Hs Hl].
  split.
  - by rewrite list_lookup_insert_ne.
  - by eapply HeapFacts.lookup_insert_same.
Qed.

(** ... and leaves another instance, with a store of its own, as it was. *)
Lemma cid_at_store_other h self l st other lo sb st' :
  cid_at h self l st → cid_at h other lo sb → l ≠ lo →
  cid_at (<[l := OrderedDict st']> h) other lo sb.
Proof.
  intros [Hs Hl] [Ho Hlo] Hne. split.
  - rewrite list_lookup_insert_ne; [done|]. intros ->. congruence.
  - by rewrite list_lookup_insert_ne.
Qed.

Ltac run_cid Hc :=
  let Hs := fresh "Hs" in let Hl := fresh "Hl" in
  destruct Hc as [Hs Hl];
  unfold get_store, od_load; run; rewrite ?Hs; simpl; rewrite ?Hl; simpl.

Lemma setitem_run h self l st key value :
  cid_at h self l st →
  __setitem__ lower self key value h
  = (Return tt,
     <[l := OrderedDict (PyDict.set st (lower key) (key, value))]> h).
Proof. intros Hc. unfold __setitem__. by run_cid Hc. Qed.

Lemma getitem_run h self l st key :
  cid_at h self l st →
  __getitem__ lower self key h
  = (match PyDict.lookup st (lower key) with
     | Some kv => Return kv.2
     | None => Raise (KeyError (lower key))
     end, h).
Proof.
  intros Hc. unfold __getitem__, PyDict.__getitem__. run_cid Hc.
  by destruct (PyDict.lookup st (lower key)).
Qed.

Lemma delitem_run h self l st key :
  cid_at h self l st →
  __delitem__ lower self key h
  = match PyDict.lookup st (lower key) with
    | Some _ =>
        (Return tt, <[l := OrderedDict (PyDict.remove st (lower key))]> h)
    | None => (Raise (KeyError (lower key)), h)
    end.
Proof.
  intros Hc. unfold __delitem__, PyDict.__delitem__. run_cid Hc.
  by destruct (PyDict.lookup st (lower key)).
Qed.

Lemma iter_run h self l st :
  cid_at h self l st → __iter__ self h = (Return ((PyDict.values st).*1), h).
Proof. intros Hc. unfold __iter__. by run_cid Hc. Qed.

Lemma len_run h self l st :
  cid_at h self l st → __len__ self h = (Return (length st), h).
Proof. intros Hc. unfold __len__. by run_cid Hc. Qed.

Lemma lower_items_run h self l st :
  cid_at h self l st →
  lower_items self h = (Return ((λ p, (p.1, p.2.2)) <$> st), h).
Proof. intros Hc. unfold lower_items. by run_cid Hc. Qed.

Lemma contains_run h self l st key :
  cid_at h self l st →
  __contains__ lower self key h
  = (Return (bool_decide (is_Some (PyDict.lookup st (lower key)))), h).
Proof.
  intros Hc. unfold __contains__. run.
  rewrite (getitem_run h self l st key Hc).
  by destruct (PyDict.lookup st (lower key)) as [kv|].
Qed.

(** *** The invariant *)

Lemma wf_nil : wf lower (V:=V) [].
Proof. split; [apply NoDup_nil_2 | apply Forall_nil_2]. Qed.

Lemma wf_set st key value :
  wf lower st → wf lower (PyDict.set st (lower key) (key, value)).
Proof.
  intros [Hnd Hall]. split; [by apply PyDictFacts.NoDup_set|].
  clear Hnd. induction st as [|[f kv] st IH]; simpl.
  - by repeat constructor.
  - apply Forall_cons in Hall as [Hf Hall]. case_decide.
    + subst. by constructor.
    + constructor; auto.
Qed.

Lemma wf_remove st f : wf lower st → wf lower (PyDict.remove st f).
Proof.
  intros [Hnd Hall]. split; [by apply PyDictFacts.NoDup_remove|].
  clear Hnd. induction st as [|[f' kv] st IH]; simpl; [done|].
  apply Forall_cons in Hall as [Hf Hall]. case_decide; [done|].
  constructor; auto.
Qed.

Lemma wf_fill st (ps : list (string * V)) :
  wf lower st → wf lower (fill lower st ps).
Proof.
  revert st. induction ps as [|[k v] ps IH]; intros st Hwf; simpl; [done|].
  apply IH. by apply (wf_set st k v).
Qed.

(** In a well-formed store, an entry is found under its recorded key. *)
Lemma wf_lookup_entry st e :
  wf lower st → e ∈ st → PyDict.lookup st (lower e.2.1) = Some e.2.
Proof.
  intros [Hnd Hall] Hin. destruct e as [f kv].
  rewrite Forall_forall in Hall. specialize (Hall _ Hin). simpl in *.
  subst f. by apply PyDictFacts.elem_lookup.
Qed.

Lemma wf_lookup_lower st f k v :
  wf lower st → PyDict.lookup st f = Some (k, v) → f = lower k.
Proof.
  intros [_ Hall] E%PyDictFacts.lookup_Some_elem.
  rewrite Forall_forall in Hall. by apply Hall in E.
Qed.

(** *** The constructor *)

Lemma grown_cid_at h st : cid_at (grown h st) (length h) (S (length h)) st.
Proof.
  split; [apply HeapFacts.lookup_pair_fst | apply HeapFacts.lookup_pair_snd].
Qed.

Lemma grown_old h st l o : h !! l = Some o → grown h st !! l = Some o.
Proof. apply HeapFacts.lookup_pair_old. Qed.

Lemma grown_cid_at_old h st self l st' :
  cid_at h self l st' → cid_at (grown h st) self l st'.
Proof. intros [Hs Hl]. split; by apply grown_old. Qed.

Lemma grown_store h st st' :
  <[S (length h) := OrderedDict st']> (grown h st) = grown h st'.
Proof. apply HeapFacts.insert_pair_snd. Qed.

Lemma setitems_run h self l st (ps : list (string * V)) :
  cid_at h self l st →
  Heap.for_each ps (λ p, __setitem__ lower self p.1 p.2) h
  = (Return tt, <[l := OrderedDict (fill lower st ps)]> h).
Proof.
  revert h st. induction ps as [|[k v] ps IH]; intros h st Hc; simpl.
  - run. rewrite list_insert_id; [done | apply Hc].
  - unfold Heap.bind. rewrite (setitem_run h self l st k v Hc). simpl.
    erewrite IH; [|by eapply cid_at_store].
    by rewrite HeapFacts.insert_insert_same.
Qed.

(** Filling from another CaseInsensitiveDict, key by key. *)
Lemma update_loop_run h self l st other lo sb (ps : list (string * V)) :
  cid_at h self l st → cid_at h other lo sb → l ≠ lo →
  Forall (λ p, ∃ k', PyDict.lookup sb (lower p.1) = Some (k', p.2)) ps →
  Heap.for_each (ps.*1)
    (λ key, v ← getitem_of lower other key; __setitem__ lower self key v) h
  = (Return tt, <[l := OrderedDict (fill lower st ps)]> h).
Proof.
  intros Hs Ho Hne. revert h st Hs Ho.
  induction ps as [|[k v] ps IH]; intros h st Hs Ho Hall; csimpl.
  - run. rewrite list_insert_id; [done | apply Hs].
  - apply Forall_cons in Hall as [[k' Hk] Hall]. simpl in Hk.
    unfold Heap.bind at 1. unfold getitem_of at 1. run.
    rewrite (proj1 Ho).
    rewrite (getitem_run h other lo sb k Ho), Hk. simpl.
    rewrite (setitem_run h self l st k v Hs).
    erewrite IH; [| by eapply cid_at_store
                  | by eapply cid_at_store_other | done].
    by rewrite HeapFacts.insert_insert_same.
Qed.

Lemma fill_app st (ps qs : list (string * V)) :
  fill lower (fill lower st ps) qs = fill lower st (ps ++ qs).
Proof. unfold fill. by rewrite foldl_app. Qed.

Lemma fill_fresh st (es : PyDict.t (string * V)) :
  NoDup (PyDict.keys (st ++ es)) → Forall (λ e, e.1 = lower e.2.1) es →
  fill lower st (PyDict.values es) = st ++ es.
Proof.
  revert st. induction es as [|[f [k v]] es IH]; intros st Hnd Hall; csimpl.
  - by rewrite app_nil_r.
  - apply Forall_cons in Hall as [Hf Hall]. simpl in Hf. subst f.
    rewrite PyDictFacts.set_absent.
    + unfold PyDict.values in IH. rewrite IH; [| |done].
      * by rewrite <- app_assoc.
      * by rewrite <- app_assoc.
    + apply PyDictFacts.lookup_None_keys. unfold PyDict.keys in *.
      rewrite fmap_app in Hnd. apply NoDup_app in Hnd as (_ & Hdis & _).
      intros Hin. apply (Hdis _ Hin). csimpl. left.
Qed.

(** Rebuilding a well-formed store from its values gives it back. *)
Lemma fill_values st : wf lower st → fill lower [] (PyDict.values st) = st.
Proof. intros [Hnd Hall]. by rewrite fill_fresh. Qed.

(** Pairs with distinct lowercased keys are stored in their order. *)
Lemma fill_distinct (ps : list (string * V)) :
  NoDup (lower <$> ps.*1) →
  fill lower [] ps = (λ p, (lower p.1, p)) <$> ps.
Proof.
  intros Hnd.
  assert (E : ps = PyDict.values ((λ p, (lower p.1, p)) <$> ps)).
  { unfold PyDict.values. rewrite <- list_fmap_compose.
    symmetry. apply list_fmap_id. }
  rewrite E at 1. rewrite fill_fresh; [done| |].
  - simpl. unfold PyDict.keys. rewrite <- list_fmap_compose.
    rewrite <- list_fmap_compose in Hnd. exact Hnd.
  - apply Forall_fmap, Forall_forall. by intros [k v] _.
Qed.

(** The instance and its empty store, before [update] runs. *)
Lemma init_store_run h :
  (l ← Heap.alloc (OrderedDict []); set_store (length h) l)
    (h ++ [CIDict None])
  = (Return tt, grown h []).
Proof.
  unfold set_store. run. rewrite HeapFacts.lookup_fresh2_fst.
  by rewrite HeapFacts.insert_fresh2_fst, HeapFacts.length_snoc.
Qed.

Lemma new_pairs_run h (ps kwargs : list (string * V)) :
  new lower (DataPairs ps) kwargs h
  = (Return (length h), grown h (fill lower [] (ps ++ kwargs))).
Proof.
  pose proof (init_store_run h) as Hi. revert Hi.
  unfold new, __init__, update. run. intros ->.
  rewrite (setitems_run _ _ _ [] ps (grown_cid_at h [])), grown_store.
  rewrite (setitems_run _ _ _ _ kwargs (grown_cid_at h _)), grown_store.
  by rewrite fill_app.
Qed.

Lemma new_cid_run h other lo sb :
  cid_at h other lo sb → wf lower sb →
  new lower (DataRef other) [] h = (Return (length h), grown h sb).
Proof.
  intros Ho Hwf. pose proof (init_store_run h) as Hi.
  pose proof (grown_cid_at_old h [] _ _ _ Ho) as Ho'.
  assert (Hne : S (length h) ≠ lo).
  { destruct Ho as [_ Hlo%lookup_lt_Some]. lia. }
  assert (Hall : Forall (λ p, ∃ k', PyDict.lookup sb (lower p.1)
                                    = Some (k', p.2)) (PyDict.values sb)).
  { apply Forall_forall. intros [k v] Hin.
    apply list_elem_of_fmap in Hin as ([f kv] & E & Hin). simpl in E. subst kv.
    exists k. by apply (wf_lookup_entry sb (f, (k, v))). }
  pose proof (update_loop_run _ _ _ [] other lo sb (PyDict.values sb)
                (grown_cid_at h []) Ho' Hne Hall) as Hu.
  pose proof (iter_run _ _ _ _ Ho') as Hit.
  revert Hi Hu Hit. unfold new, __init__, update, iter_of. run.
  intros -> Hu Hit. rewrite (proj1 Ho'), Hit, Hu.
  by rewrite grown_store, fill_values.
Qed.

Lemma copy_run h self l st :
  cid_at h self l st → wf lower st →
  copy lower self h = (Return (length h), grown h st).
Proof.
  intros Hc Hwf. unfold copy. destruct Hc as [Hs Hl].
  unfold get_store, od_load. run. rewrite Hs. simpl. rewrite Hl. simpl.
  by rewrite new_pairs_run, app_nil_r, fill_values.
Qed.

(** *** Comparison *)

Lemma lookup_lower_items st f :
  PyDict.lookup ((λ p, (p.1, p.2.2)) <$> st) f = folded st f.
Proof.
  unfold folded. induction st as [|[f' [k v]] st IH]; csimpl; [done|].
  by case_decide.
Qed.

Lemma keys_lower_items st :
  PyDict.keys ((λ p : string * (string * V), (p.1, p.2.2)) <$> st)
  = PyDict.keys st.
Proof. unfold PyDict.keys. by rewrite <- list_fmap_compose. Qed.

Lemma eq_run h self l sa other lo sb :
  cid_at h self l sa → cid_at h other lo sb → wf lower sa → wf lower sb →
  __eq__ lower self other h
  = (Return (Answer (PyDict.eqb ((λ p, (p.1, p.2.2)) <$> sa)
                                ((λ p, (p.1, p.2.2)) <$> sb))),
     grown h sb).
Proof.
  intros Hs Ho Hwa Hwb.
  pose proof (new_cid_run h other lo sb Ho Hwb) as Hn.
  pose proof (lower_items_run _ _ _ _ (grown_cid_at_old h sb _ _ _ Hs)) as Ha.
  pose proof (lower_items_run _ _ _ _ (grown_cid_at h sb)) as Hb.
  revert Hn Ha Hb. unfold __eq__. run. rewrite (proj1 Ho). simpl.
  intros -> -> ->.
  rewrite !PyDictFacts.of_pairs_NoDup; [done | |];
    rewrite keys_lower_items; [apply Hwb | apply Hwa].
Qed.

Lemma eqb_lower_items (sa sb : list (string * (string * V))) :
  wf lower sa → wf lower sb →
  PyDict.eqb ((λ p, (p.1, p.2.2)) <$> sa) ((λ p, (p.1, p.2.2)) <$> sb) = true
  ↔ ∀ f, folded sa f = folded sb f.
Proof.
  intros [Ha _] [Hb _]. rewrite PyDictFacts.eqb_true.
  - by setoid_rewrite lookup_lower_items.
  - by rewrite keys_lower_items.
  - by rewrite keys_lower_items.
Qed.

Lemma eq_not_mapping h self other :
  h !! other = Some Other →
  __eq__ lower self other h = (Return NotImplemented, h).
Proof. intros Ho. unfold __eq__. run. by rewrite Ho. Qed.

(** *** Items *)

Lemma collect_items_run h self l st (ps : list (string * V)) :
  cid_at h self l st →
  Forall (λ p, ∃ k', PyDict.lookup st (lower p.1) = Some (k', p.2)) ps →
  Heap.collect (ps.*1) (λ key, v ← __getitem__ lower self key; mret (key, v)) h
  = (Return ps, h).
Proof.
  intros Hc. induction ps as [|[k v] ps IH]; intros Hall; csimpl; [done|].
  apply Forall_cons in Hall as [[k' Hk] Hall]. simpl in Hk.
  pose proof (getitem_run h self l st k Hc) as Hg. rewrite Hk in Hg.
  specialize (IH Hall). revert Hg IH. run. by intros -> ->.
Qed.

Lemma items_run h self l st :
  cid_at h self l st → wf lower st →
  items lower self h = (Return (PyDict.values st), h).
Proof.
  intros Hc Hwf.
  assert (Hall : Forall (λ p, ∃ k', PyDict.lookup st (lower p.1)
                                    = Some (k', p.2)) (PyDict.values st)).
  { apply Forall_forall. intros [k v] Hin.
    apply list_elem_of_fmap in Hin as ([f kv] & E & Hin). simpl in E. subst kv.
    exists k. by apply (wf_lookup_entry st (f, (k, v))). }
  pose proof (collect_items_run h self l st _ Hc Hall) as Hcol.
  pose proof (iter_run h self l st Hc) as Hit.
  revert Hcol Hit. unfold items. run. by intros Hcol ->.
Qed.

(** *** Frame: a mutation writes the store of its instance, nothing else *)

Lemma mutate_frame h self l m l0 :
  h !! self = Some (CIDict (Some l)) → l0 ≠ l →
  (mutate lower self m h).2 !! l0 = h !! l0.
Proof.
  intros Hs Hne.
  destruct m as [key value | key]; unfold mutate, __setitem__, __delitem__,
    get_store, od_load, PyDict.__delitem__; run; rewrite Hs; simpl;
    destruct (h !! l) as [[| d | |]|]; simpl; try done.
  - by rewrite list_lookup_insert_ne.
  - destruct (PyDict.lookup d (lower key)); simpl; [|done].
    by rewrite list_lookup_insert_ne.
Qed.

Lemma mutate_self h self l m :
  h !! self = Some (CIDict (Some l)) →
  (mutate lower self m h).2 !! self = Some (CIDict (Some l)).
Proof.
  intros Hs. destruct (decide (self = l)) as [<- | Hne].
  - destruct m as [key value | key]; unfold mutate, __setitem__, __delitem__,
      get_store, od_load; run; by rewrite Hs; simpl; rewrite Hs.
  - by rewrite (mutate_frame h self l m self Hs Hne).
Qed.

Lemma mutations_frame h self l ms l0 :
  h !! self = Some (CIDict (Some l)) → l0 ≠ l →
  mutations lower self ms h !! l0 = h !! l0.
Proof.
  intros Hs Hne. revert h Hs. unfold mutations.
  induction ms as [|m ms IH]; intros h Hs; simpl; [done|].
  rewrite IH; [by eapply mutate_frame | by apply mutate_self].
Qed.

(** *** The invariant holds of every map the class builds and keeps *)

Lemma new_pairs_wf h (ps kwargs : list (string * V)) :
  ∃ c lc st h', new lower (DataPairs ps) kwargs h = (Return c, h')
                ∧ cid_at h' c lc st ∧ wf lower st.
Proof.
  eexists _, _, _, _. split; [apply new_pairs_run|].
  split; [apply grown_cid_at | apply wf_fill, wf_nil].
Qed.

Lemma mutate_wf h self l st m :
  cid_at h self l st → wf lower st →
  ∃ st', cid_at (mutate lower self m h).2 self l st' ∧ wf lower st'.
Proof.
  intros Hc Hwf. destruct m as [key value | key]; simpl.
  - rewrite (setitem_run h self l st key value Hc). simpl.
    eexists. split; [by eapply cid_at_store | by apply wf_set].
  - rewrite (delitem_run h self l st key Hc).
    destruct (PyDict.lookup st (lower key)); simpl.
    + eexists. split; [by eapply cid_at_store | by apply wf_remove].
    + by exists st.
Qed.

(** *** One entry per lowercased key *)

Lemma filter_keys_absent st f :
  wf lower st → f ∉ PyDict.keys st →
  filter (λ k, lower k = f) ((PyDict.values st).*1) = [].
Proof.
  intros [_ Hall]. unfold PyDict.keys.
  induction st as [|[f' [k' v']] st IH]; csimpl; [done|].
  apply Forall_cons in Hall as [Hf Hall]. simpl in Hf.
  rewrite not_elem_of_cons. intros [Hne Hni].
  rewrite filter_cons_False; [auto | congruence].
Qed.

Lemma filter_keys_present st f k v :
  wf lower st → PyDict.lookup st f = Some (k, v) →
  filter (λ k', lower k' = f) ((PyDict.values st).*1) = [k].
Proof.
  intros [Hnd Hall]. unfold PyDict.keys in Hnd.
  induction st as [|[f' [k' v']] st IH]; csimpl; [done|].
  apply Forall_cons in Hall as [Hf Hall]. simpl in Hf.
  apply NoDup_cons in Hnd as [Hni Hnd]. case_decide as Hff.
  - intros [= -> ->]. subst. rewrite filter_cons_True; [|done].
    by rewrite filter_keys_absent.
  - intros E. rewrite filter_cons_False; [auto | congruence].
Qed.

Lemma filter_store_absent (st : list (string * (string * V))) f :
  f ∉ PyDict.keys st → filter (λ e, e.1 = f) st = [].
Proof.
  unfold PyDict.keys. induction st as [|[f' kv] st IH]; csimpl; [done|].
  rewrite not_elem_of_cons. intros [Hne Hni].
  rewrite filter_cons_False; [auto | simpl; congruence].
Qed.

Lemma filter_store_present (st : list (string * (string * V))) f kv :
  NoDup (PyDict.keys st) → PyDict.lookup st f = Some kv →
  filter (λ e, e.1 = f) st = [(f, kv)].
Proof.
  unfold PyDict.keys. induction st as [|[f' kv'] st IH]; csimpl; [done|].
  intros [Hni Hnd]%NoDup_cons. case_decide as Hff.
  - intros [= ->]. subst. rewrite filter_cons_True; [|done].
    by rewrite filter_store_absent.
  - intros E. rewrite filter_cons_False; [auto | simpl; congruence].
Qed.

End facts.
End CaseInsensitiveDictFacts.

(** ** CaseInsensitiveDict: the specification *)

Module CaseInsensitiveDictSpec.
Import CaseInsensitiveDict CaseInsensitiveDictFacts.

(** C1. Lookup is case-insensitive: for keys [k1], [k2] with the same
    lowercased form and any value [v], after [self[k1] = v] on any instance,
    [self[k2]] returns [v] and [k2 in self] is true. *)
Theorem lookup_case_insensitive {V : Type} (lower : string → string)
    (h : list (@obj V)) (self l : loc) st (k1 k2 : string) (v : V) :
  cid_at h self l st → lower k1 = lower k2 →
  ∃ h', __setitem__ lower self k1 v h = (Return tt, h')
        ∧ __getitem__ lower self k2 h' = (Return v, h')
        ∧ __contains__ lower self k2 h' = (Return true, h').
Proof.
  intros Hc Hk. eexists. split; [by apply setitem_run|].
  pose proof (cid_at_store h self l st
                (PyDict.set st (lower k1) (k1, v)) Hc) as Hc'.
  rewrite (getitem_run lower _ _ _ _ k2 Hc').
  rewrite (contains_run lower _ _ _ _ k2 Hc').
  by rewrite <- Hk, PyDictFacts.lookup_set_eq.
Qed.

Lemma lookup_case_insensitive_witness :
  ∃ h', __setitem__ str_lower 0 "Accept" "json" (grown [] [])
        = (Return tt, h')
        ∧ __getitem__ str_lower 0 "aCCEPT" h' = (Return "json", h')
        ∧ __contains__ str_lower 0 "aCCEPT" h' = (Return true, h').
Proof.
  apply (lookup_case_insensitive str_lower (grown [] []) 0 1 []).
  - split; reflexivity.
  - reflexivity.
Defined.

(** C7. [self[key]] returns the value stored under the lowercased key and
    raises [KeyError] exactly when there is no such entry; [del self[key]]
    removes that entry and raises [KeyError] exactly when there is none; the
    exception is the one the store raised, as it raised it, and the heap is
    left untouched. *)
Theorem strict_access {V : Type} (lower : string → string)
    (h : list (@obj V)) (self l : loc) st (key : string) :
  cid_at h self l st → wf lower st →
  (∀ v, folded st (lower key) = Some v →
        __getitem__ lower self key h = (Return v, h))
  ∧ (folded st (lower key) = None →
        __getitem__ lower self key h = (Raise (KeyError (lower key)), h))
  ∧ ((∃ e, (__getitem__ lower self key h).1 = Raise e)
        ↔ folded st (lower key) = None)
  ∧ (is_Some (folded st (lower key)) →
        ∃ h' st', __delitem__ lower self key h = (Return tt, h')
          ∧ cid_at h' self l st'
          ∧ folded st' (lower key) = None
          ∧ (∀ f, f ≠ lower key → PyDict.lookup st' f = PyDict.lookup st f)
          ∧ S (length st') = length st
          ∧ __getitem__ lower self key h'
            = (Raise (KeyError (lower key)), h'))
  ∧ (folded st (lower key) = None →
        __delitem__ lower self key h = (Raise (KeyError (lower key)), h))
  ∧ ((∃ e, (__delitem__ lower self key h).1 = Raise e)
        ↔ folded st (lower key) = None)
  ∧ (∀ e, (__getitem__ lower self key h).1 = Raise e →
          PyDict.__getitem__ st (lower key) = Raise e)
  ∧ (∀ e, (__delitem__ lower self key h).1 = Raise e →
          PyDict.__delitem__ st (lower key) = Raise e).
Proof.
  intros Hc Hwf.
  rewrite (getitem_run lower h self l st key Hc).
  rewrite (delitem_run lower h self l st key Hc).
  unfold folded, PyDict.__getitem__, PyDict.__delitem__.
  destruct (PyDict.lookup st (lower key)) as [[k0 v0]|] eqn:E; simpl.
  - split_and!; try done.
    + by intros v [= ->].
    + split; [by intros [e ?] | done].
    + intros _. eexists _, (PyDict.remove st (lower key)).
      pose proof (cid_at_store h self l st
                    (PyDict.remove st (lower key)) Hc) as Hc'.
      split_and!; [done | done | | | |].
      * rewrite PyDictFacts.lookup_remove_eq; [done | apply Hwf].
      * intros f Hf. by apply PyDictFacts.lookup_remove_ne.
      * by eapply PyDictFacts.length_remove.
      * rewrite (getitem_run lower _ _ _ _ key Hc').
        rewrite PyDictFacts.lookup_remove_eq; [done | apply Hwf].
    + split; [by intros [e ?] | done].
  - split_and!; try done; try (by intros e [= <-]);
      (split; [done | intros _; eauto]).
Qed.

Lemma strict_access_witness :
  folded [("accept", ("Accept", "json"))] (str_lower "ACCEPT") = Some "json"
  ∧ __getitem__ str_lower 0 "ACCEPT"
      (grown [] [("accept", ("Accept", "json"))])
    = (Return "json", grown [] [("accept", ("Accept", "json"))]).
Proof.
  split; [reflexivity|].
  apply (strict_access str_lower (grown [] [("accept", ("Accept", "json"))])
           0 1 [("accept", ("Accept", "json"))] "ACCEPT").
  - split; reflexivity.
  - split; [apply NoDup_singleton | by repeat constructor].
  - reflexivity.
Defined.

(** C5. Iteration follows the insertion order of lowercased keys:
    [self[key] = value] puts [key] at the end of the iteration exactly when
    its lowercased form is not yet there; when it is there, its entry is
    rewritten where it stands. [keys()], [items()] and [iter()] give the
    recorded keys in that order, each time they are run, and a map built from
    pairs with distinct lowercased keys iterates them in the order given. *)
Theorem iteration_order {V : Type} (lower : string → string)
    (h : list (@obj V)) (self l : loc) st (key : string) (value : V) :
  cid_at h self l st → wf lower st →
  ∃ ks h' ks',
    __iter__ self h = (Return ks, h)
    ∧ __setitem__ lower self key value h = (Return tt, h')
    ∧ __iter__ self h' = (Return ks', h')
    ∧ keys self h' = (Return ks', h')
    ∧ (a ← keys self; b ← keys self; mret (a, b)) h' = (Return (ks', ks'), h')
    ∧ (∃ its, items lower self h' = (Return its, h') ∧ its.*1 = ks')
    ∧ (__contains__ lower self key h = (Return false, h) →
         ks' = ks ++ [key])
    ∧ (__contains__ lower self key h = (Return true, h) →
         ∃ i k0, ks !! i = Some k0 ∧ lower k0 = lower key
                 ∧ ks' = <[i := key]> ks)
    ∧ (ks' = ks ++ [key]
         ↔ __contains__ lower self key h = (Return false, h))
    ∧ (∀ (ps : list (string * V)) h0,
         NoDup (lower <$> ps.*1) →
         ∃ c hc, new lower (DataPairs ps) [] h0 = (Return c, hc)
                 ∧ __iter__ c hc = (Return (ps.*1), hc)).
Proof.
  intros Hc Hwf.
  pose proof (cid_at_store h self l st
                (PyDict.set st (lower key) (key, value)) Hc) as Hc'.
  pose proof (wf_set lower st key value Hwf) as Hwf'.
  eexists _, _, _.
  split; [by eapply iter_run|]. split; [by eapply setitem_run|].
  split; [by eapply iter_run|]. split; [by eapply iter_run|].
  split.
  { pose proof (iter_run _ _ _ _ Hc') as Hit. revert Hit.
    unfold keys. run. intros Hit. rewrite Hit. simpl. by rewrite Hit. }
  split; [eexists; split; [by eapply items_run | done]|].
  rewrite (contains_run lower h self l st key Hc).
  destruct (PyDict.lookup st (lower key)) as [[k0 v0]|] eqn:E; simpl.
  - destruct (PyDictFacts.set_present st _ _ (key, value) E)
      as (d1 & d2 & -> & Hk & ->).
    assert (Hupd : (PyDict.values (d1 ++ (lower key, (key, value)) :: d2)).*1
              = <[length d1 := key]>
                  ((PyDict.values (d1 ++ (lower key, (k0, v0)) :: d2)).*1)).
    { unfold PyDict.values. rewrite !fmap_app. csimpl.
      rewrite insert_app_r_alt; rewrite !length_fmap; [|lia].
      by rewrite Nat.sub_diag. }
    split_and!; [done | | | ].
    + intros _. exists (length d1), k0. split_and!; [ | | done].
      * unfold PyDict.values. rewrite !fmap_app. csimpl.
        rewrite lookup_app_r; rewrite !length_fmap; [|lia].
        by rewrite Nat.sub_diag.
      * symmetry. by eapply (wf_lookup_lower lower), E.
    + split; [|done]. rewrite Hupd. intros Heq.
      apply (f_equal length) in Heq.
      rewrite length_insert, length_app in Heq. simpl in Heq. lia.
    + intros ps h0 Hnd. eexists _, _. split; [apply new_pairs_run|].
      rewrite (iter_run _ _ _ _ (grown_cid_at h0 _)).
      rewrite app_nil_r, (fill_distinct lower ps Hnd).
      unfold PyDict.values. by rewrite <- !list_fmap_compose.
  - rewrite (PyDictFacts.set_absent st _ _ E).
    assert (Happ : (PyDict.values (st ++ [(lower key, (key, value))])).*1
                   = (PyDict.values st).*1 ++ [key]).
    { unfold PyDict.values. by rewrite !fmap_app. }
    split_and!; [done | done | done |].
    intros ps h0 Hnd. eexists _, _. split; [apply new_pairs_run|].
    rewrite (iter_run _ _ _ _ (grown_cid_at h0 _)).
    rewrite app_nil_r, (fill_distinct lower ps Hnd).
    unfold PyDict.values. by rewrite <- !list_fmap_compose.
Qed.

Lemma iteration_order_witness :
  ∃ ks h' ks',
    __iter__ 0 (grown [] [("accept", ("Accept", "json")); ("host", ("Host", "a"))])
    = (Return ks,
       grown [] [("accept", ("Accept", "json")); ("host", ("Host", "a"))])
    ∧ __setitem__ str_lower 0 "ACCEPT" "xml"
        (grown [] [("accept", ("Accept", "json")); ("host", ("Host", "a"))])
      = (Return tt, h')
    ∧ __iter__ 0 h' = (Return ks', h')
    ∧ ks = ["Accept"; "Host"] ∧ ks' = ["ACCEPT"; "Host"].
Proof.
  destruct (iteration_order str_lower
              (grown [] [("accept", ("Accept", "json")); ("host", ("Host", "a"))])
              0 1 [("accept", ("Accept", "json")); ("host", ("Host", "a"))]
              "ACCEPT" "xml") as (ks & h' & ks' & Hi & Hs & Hi' & _).
  - split; reflexivity.
  - split; [|by repeat constructor].
    unfold PyDict.keys. csimpl. apply NoDup_cons.
    split; [|apply NoDup_singleton].
    intros Hin%list_elem_of_singleton. discriminate.
  - exists ks, h', ks'. split_and!; [done | done | done | |].
    + by injection Hi as <-.
    + injection Hs as <-. by injection Hi' as <-.
Defined.

(** C2. Setting one lowercased key twice, under two spellings, leaves one
    entry for it, recorded under the spelling set last, and iteration yields
    that spelling once and no other spelling of it. In particular the map
    built from [("Accept", "json"); ("accept", "xml")] has length 1, gives
    "xml" for "ACCEPT", and its keys are ["accept"]. *)
Theorem last_casing_wins :
  (∀ (V : Type) (lower : string → string) (h : list (@obj V))
     (self l : loc) st (k1 k2 : string) (v1 v2 : V),
     cid_at h self l st → wf lower st → lower k1 = lower k2 →
     ∃ h1 h2 st1 st2 ks,
       __setitem__ lower self k1 v1 h = (Return tt, h1)
       ∧ cid_at h1 self l st1
       ∧ __setitem__ lower self k2 v2 h1 = (Return tt, h2)
       ∧ cid_at h2 self l st2
       ∧ length st2 = length st1
       ∧ filter (λ e, e.1 = lower k2) st2 = [(lower k2, (k2, v2))]
       ∧ __iter__ self h2 = (Return ks, h2)
       ∧ filter (λ k, lower k = lower k2) ks = [k2])
  ∧ (∀ h0 : list (@obj string),
       ∃ c h,
         new str_lower (DataPairs [("Accept", "json"); ("accept", "xml")]) [] h0
         = (Return c, h)
         ∧ __len__ c h = (Return 1, h)
         ∧ __getitem__ str_lower c "ACCEPT" h = (Return "xml", h)
         ∧ keys c h = (Return ["accept"], h)).
Proof.
  split.
  - intros V lower h self l st k1 k2 v1 v2 Hc Hwf Hk.
    pose proof (cid_at_store h self l st
                  (PyDict.set st (lower k1) (k1, v1)) Hc) as Hc1.
    pose proof (wf_set lower st k1 v1 Hwf) as Hwf1.
    set (st1 := PyDict.set st (lower k1) (k1, v1)) in *.
    pose proof (cid_at_store _ self l st1
                  (PyDict.set st1 (lower k2) (k2, v2)) Hc1) as Hc2.
    pose proof (wf_set lower st1 k2 v2 Hwf1) as Hwf2.
    rewrite HeapFacts.insert_insert_same in Hc2.
    exists (<[l := OrderedDict st1]> h),
      (<[l := OrderedDict (PyDict.set st1 (lower k2) (k2, v2))]> h),
      st1, (PyDict.set st1 (lower k2) (k2, v2)),
      ((PyDict.values (PyDict.set st1 (lower k2) (k2, v2))).*1).
    split; [by eapply setitem_run|]. split; [done|].
    split.
    { rewrite (setitem_run lower _ self l st1 k2 v2 Hc1).
      by rewrite HeapFacts.insert_insert_same. }
    split; [done|]. split.
    { rewrite PyDictFacts.length_set. subst st1.
      by rewrite <- Hk, PyDictFacts.lookup_set_eq. }
    split.
    { apply filter_store_present; [apply Hwf2|].
      apply PyDictFacts.lookup_set_eq. }
    split; [by eapply iter_run|].
    apply (filter_keys_present lower _ _ k2 v2 Hwf2).
    apply PyDictFacts.lookup_set_eq.
  - intros h0. eexists _, _. split; [apply new_pairs_run|].
    change (fill str_lower [] _) with [("accept", ("accept", "xml"))].
    pose proof (grown_cid_at h0 [("accept", ("accept", "xml"))]) as Hc.
    split; [by rewrite (len_run _ _ _ _ Hc)|].
    split; [by rewrite (getitem_run str_lower _ _ _ _ "ACCEPT" Hc)|].
    unfold keys. by rewrite (iter_run _ _ _ _ Hc).
Qed.

Lemma last_casing_wins_witness :
  ∃ h1 h2 st1 st2 ks,
    __setitem__ str_lower 0 "Accept" "json" (grown [] []) = (Return tt, h1)
    ∧ cid_at h1 0 1 st1
    ∧ __setitem__ str_lower 0 "accept" "xml" h1 = (Return tt, h2)
    ∧ cid_at h2 0 1 st2
    ∧ length st2 = length st1
    ∧ filter (λ e, e.1 = str_lower "accept") st2
      = [(str_lower "accept", ("accept", "xml"))]
    ∧ __iter__ 0 h2 = (Return ks, h2)
    ∧ filter (λ k, str_lower k = str_lower "accept") ks = ["accept"].
Proof.
  apply (proj1 last_casing_wins string str_lower (grown [] []) 0 1 []).
  - split; reflexivity.
  - split; [apply NoDup_nil_2 | apply Forall_nil_2].
  - reflexivity.
Defined.

(** C4. Two maps are equal exactly when their lowercased-key-to-value
    mappings are equal, whatever the spellings recorded and the order of
    insertion; comparing with something that is not a Mapping returns
    [NotImplemented] and raises nothing. {"Accept": "x"} equals
    {"ACCEPT": "x"} and does not equal {"Accept": "y"}. *)
Theorem equality_case_insensitive :
  (∀ (V : Type) `(EqDecision V) (lower : string → string) (h : list (@obj V))
     (a la b lb : loc) sa sb,
     cid_at h a la sa → cid_at h b lb sb → wf lower sa → wf lower sb →
     ∃ r h', __eq__ lower a b h = (Return (Answer r), h')
             ∧ (r = true ↔ ∀ f, folded sa f = folded sb f))
  ∧ (∀ (V : Type) `(EqDecision V) (lower : string → string)
       (h : list (@obj V)) (a other : loc),
       h !! other = Some Other →
       __eq__ lower a other h = (Return NotImplemented, h))
  ∧ (∀ h0 : list (@obj string),
       ∃ a b c d h,
         (a ← new str_lower (DataPairs [("Accept", "x")]) [];
          b ← new str_lower (DataPairs [("ACCEPT", "x")]) [];
          c ← new str_lower (DataPairs [("Accept", "y")]) [];
          d ← new str_lower (DataPairs []) [("accept", "x")];
          mret (a, b, c, d)) h0 = (Return (a, b, c, d), h)
         ∧ (__eq__ str_lower a b h).1 = Return (Answer true)
         ∧ (__eq__ str_lower a c h).1 = Return (Answer false)
         ∧ (__eq__ str_lower a d h).1 = Return (Answer true)).
Proof.
  split_and!.
  - intros V ? lower h a la b lb sa sb Ha Hb Hwa Hwb.
    eexists _, _. split; [by eapply eq_run|].
    by apply (eqb_lower_items lower).
  - intros V ? lower h a other Ho. by apply eq_not_mapping.
  - intros h0.
    pose proof (new_pairs_run str_lower h0 [("Accept", "x")] []) as H1.
    change (fill str_lower [] _) with [("accept", ("Accept", "x"))] in H1.
    set (h1 := grown h0 [("accept", ("Accept", "x"))]) in *.
    pose proof (new_pairs_run str_lower h1 [("ACCEPT", "x")] []) as H2.
    change (fill str_lower [] _) with [("accept", ("ACCEPT", "x"))] in H2.
    set (h2 := grown h1 [("accept", ("ACCEPT", "x"))]) in *.
    pose proof (new_pairs_run str_lower h2 [("Accept", "y")] []) as H3.
    change (fill str_lower [] _) with [("accept", ("Accept", "y"))] in H3.
    set (h3 := grown h2 [("accept", ("Accept", "y"))]) in *.
    pose proof (new_pairs_run str_lower h3 [] [("accept", "x")]) as H4.
    change (fill str_lower [] _) with [("accept", ("accept", "x"))] in H4.
    set (h4 := grown h3 [("accept", ("accept", "x"))]) in *.
    exists (length h0), (length h1), (length h2), (length h3), h4.
    assert (Ha : cid_at h4 (length h0) (S (length h0))
                   [("accept", ("Accept", "x"))]).
    { do 3 apply grown_cid_at_old. apply grown_cid_at. }
    assert (Hb : cid_at h4 (length h1) (S (length h1))
                   [("accept", ("ACCEPT", "x"))]).
    { do 2 apply grown_cid_at_old. apply grown_cid_at. }
    assert (Hc : cid_at h4 (length h2) (S (length h2))
                   [("accept", ("Accept", "y"))]).
    { apply grown_cid_at_old. apply grown_cid_at. }
    assert (Hd : cid_at h4 (length h3) (S (length h3))
                   [("accept", ("accept", "x"))]).
    { apply grown_cid_at. }
    assert (Hwf : ∀ k v : string, wf str_lower [(str_lower k, (k, v))]).
    { intros k v. split; [apply NoDup_singleton | by repeat constructor]. }
    split.
    { revert H1 H2 H3 H4. run. by intros -> -> -> ->. }
    split_and!.
    + by rewrite (eq_run str_lower _ _ _ _ _ _ _ Ha Hb
                    (Hwf "Accept" "x") (Hwf "ACCEPT" "x")).
    + by rewrite (eq_run str_lower _ _ _ _ _ _ _ Ha Hc
                    (Hwf "Accept" "x") (Hwf "Accept" "y")).
    + by rewrite (eq_run str_lower _ _ _ _ _ _ _ Ha Hd
                    (Hwf "Accept" "x") (Hwf "accept" "x")).
Qed.

Lemma equality_case_insensitive_witness :
  ∃ r h',
    __eq__ str_lower 0 2
      (grown (grown [] [("accept", ("Accept", "x"))])
         [("accept", ("ACCEPT", "x"))])
    = (Return (Answer r), h')
    ∧ (r = true
       ↔ ∀ f, folded [("accept", ("Accept", "x"))] f
              = folded [("accept", ("ACCEPT", "x"))] f).
Proof.
  apply (proj1 equality_case_insensitive string _ str_lower
           (grown (grown [] [("accept", ("Accept", "x"))])
              [("accept", ("ACCEPT", "x"))]) 0 1 2 3).
  - split; reflexivity.
  - split; reflexivity.
  - split; [apply NoDup_singleton | by repeat constructor].
  - split; [apply NoDup_singleton | by repeat constructor].
Defined.

(** C8. [copy()] returns a new instance with a store of its own, holding the
    entries of the original, spellings and order included, and equal to it;
    whatever is then set or deleted on the copy leaves the entries of the
    original as they were, and the other way round. *)
Theorem copy_independent {V : Type} `{EqDecision V} (lower : string → string)
    (h : list (@obj V)) (self l : loc) st :
  cid_at h self l st → wf lower st →
  ∃ c lc h',
    copy lower self h = (Return c, h')
    ∧ c ≠ self ∧ lc ≠ l
    ∧ cid_at h' self l st
    ∧ cid_at h' c lc st
    ∧ entries h' c = entries h' self
    ∧ (__iter__ c h').1 = (__iter__ self h').1
    ∧ (items lower c h').1 = (items lower self h').1
    ∧ (__eq__ lower self c h').1 = Return (Answer true)
    ∧ (__eq__ lower c self h').1 = Return (Answer true)
    ∧ (∀ ms, entries (mutations lower c ms h') self = Some st)
    ∧ (∀ ms, entries (mutations lower self ms h') c = Some st).
Proof.
  intros Hc Hwf.
  pose proof (grown_cid_at h st) as Hn.
  pose proof (grown_cid_at_old h st _ _ _ Hc) as Ho.
  pose proof (copy_run lower h self l st Hc Hwf) as Hcopy.
  destruct Hc as [Hs Hl].
  pose proof (lookup_lt_Some _ _ _ Hs) as Hlts.
  pose proof (lookup_lt_Some _ _ _ Hl) as Hltl.
  exists (length h), (S (length h)), (grown h st).
  split; [done|].
  split; [lia|]. split; [lia|]. split; [done|]. split; [done|].
  split; [by rewrite (cid_at_entries _ _ _ _ Hn), (cid_at_entries _ _ _ _ Ho)|].
  split; [by rewrite (iter_run _ _ _ _ Hn), (iter_run _ _ _ _ Ho)|].
  split.
  { by rewrite (items_run lower _ _ _ _ Hn Hwf),
      (items_run lower _ _ _ _ Ho Hwf). }
  assert (Heq : PyDict.eqb ((λ p, (p.1, p.2.2)) <$> st)
                  ((λ p, (p.1, p.2.2)) <$> st) = true).
  { by apply (eqb_lower_items lower). }
  split.
  { rewrite (eq_run lower _ _ _ _ _ _ _ Ho Hn Hwf Hwf). simpl.
    by rewrite Heq. }
  split.
  { rewrite (eq_run lower _ _ _ _ _ _ _ Hn Ho Hwf Hwf). simpl.
    by rewrite Heq. }
  split; intros ms; unfold entries.
  - rewrite (mutations_frame lower _ _ _ ms self (proj1 Hn)) by lia.
    rewrite (proj1 Ho).
    rewrite (mutations_frame lower _ _ _ ms l (proj1 Hn)) by lia.
    by rewrite (proj2 Ho).
  - rewrite (mutations_frame lower _ _ _ ms (length h) (proj1 Ho)) by lia.
    rewrite (proj1 Hn).
    rewrite (mutations_frame lower _ _ _ ms (S (length h)) (proj1 Ho)) by lia.
    by rewrite (proj2 Hn).
Qed.

Lemma copy_independent_witness :
  ∃ c lc h',
    copy str_lower 0 (grown [] [("accept", ("Accept", "json"))])
    = (Return c, h')
    ∧ c ≠ 0 ∧ lc ≠ 1
    ∧ cid_at h' 0 1 [("accept", ("Accept", "json"))]
    ∧ cid_at h' c lc [("accept", ("Accept", "json"))]
    ∧ entries h' c = entries h' 0
    ∧ (__iter__ c h').1 = (__iter__ 0 h').1
    ∧ (items str_lower c h').1 = (items str_lower 0 h').1
    ∧ (__eq__ str_lower 0 c h').1 = Return (Answer true)
    ∧ (__eq__ str_lower c 0 h').1 = Return (Answer true)
    ∧ (∀ ms, entries (mutations str_lower c ms h') 0
             = Some [("accept", ("Accept", "json"))])
    ∧ (∀ ms, entries (mutations str_lower 0 ms h') c
             = Some [("accept", ("Accept", "json"))]).
Proof.
  apply (copy_independent str_lower
           (grown [] [("accept", ("Accept", "json"))]) 0 1).
  - split; reflexivity.
  - split; [apply NoDup_singleton | by repeat constructor].
Defined.

End CaseInsensitiveDictSpec.

(** ** LookupDict: the specification *)

Module LookupDictSpec.
Import LookupDict.

(** C6. Access never fails for a missing key: [get(key, default)] returns the
    value the instance holds under [key] in its attribute namespace when
    there is one, and [default] otherwise; [table[key]] is [get(key, None)];
    on a table just created both give [None] for "missing". *)
Theorem lenient_access (self : instance) (key : string)
    (value default : pyval) :
  (∃ v, get self key default = Return v
        ∧ v = match PyDict.lookup (__dict__ self) key with
              | Some stored => stored
              | None => default
              end)
  ∧ __getitem__ self key = get self key PyNone
  ∧ get (__setattr__ self key value) key default = Return value
  ∧ __getitem__ (__setattr__ self key value) key = Return value
  ∧ get (new PyNone) "missing" PyNone = Return PyNone
  ∧ __getitem__ (new PyNone) "missing" = Return PyNone.
Proof.
  split_and!; try done.
  - by eexists.
  - unfold get, __setattr__, PyDict.get. simpl.
    by rewrite PyDictFacts.lookup_set_eq.
  - unfold __getitem__, __setattr__, PyDict.get. simpl.
    by rewrite PyDictFacts.lookup_set_eq.
Qed.

(** C10, as stated, fails on the key "name": the table built with the name
    "status_codes" still answers "status_codes", not the default, after
    [table["name"] = 200]. *)
Lemma item_assignment_counterexample :
  let table := __setitem__ (new (PyStr "status_codes")) "name" (PyInt 200) in
  PyDict.lookup (dict_items table) "name" = Some (PyInt 200)
  ∧ __getitem__ table "name" = Return (PyStr "status_codes")
  ∧ __getitem__ table "name" ≠ Return PyNone
  ∧ get table "name" (PyInt 0) = Return (PyStr "status_codes")
  ∧ get table "name" (PyInt 0) ≠ Return (PyInt 0).
Proof. by split_and!. Qed.

(** C10, amended. Lookup reads the attribute namespace, not the items: on a
    table built with name [n], whatever its items, "name" gives [n] by
    subscript and by [get]; a key that is not an attribute of the instance,
    once set by item assignment, is among the items and yet subscript and
    [get] give the default for it. *)
Theorem lookup_reads_attributes (n : pyval) (self : instance)
    (key : string) (value default : pyval) :
  __dict__ self = __dict__ (new n) → key ≠ "name" →
  __getitem__ self "name" = Return n
  ∧ get self "name" PyNone = Return n
  ∧ PyDict.lookup (dict_items (__setitem__ self key value)) key = Some value
  ∧ __getitem__ (__setitem__ self key value) key = Return PyNone
  ∧ get (__setitem__ self key value) key default = Return default
  ∧ __getitem__ (__setitem__ self key value) "name" = Return n.
Proof.
  intros Hd Hk. unfold __getitem__, get, __setitem__, PyDict.get. simpl.
  rewrite Hd. simpl. rewrite PyDictFacts.lookup_set_eq.
  rewrite decide_False by done. done.
Qed.

Lemma lookup_reads_attributes_witness :
  __getitem__ (new (PyStr "status_codes")) "name"
  = Return (PyStr "status_codes")
  ∧ get (new (PyStr "status_codes")) "name" PyNone
    = Return (PyStr "status_codes")
  ∧ PyDict.lookup
      (dict_items (__setitem__ (new (PyStr "status_codes")) "ok" (PyInt 200)))
      "ok" = Some (PyInt 200)
  ∧ __getitem__ (__setitem__ (new (PyStr "status_codes")) "ok" (PyInt 200))
      "ok" = Return PyNone
  ∧ get (__setitem__ (new (PyStr "status_codes")) "ok" (PyInt 200))
      "ok" (PyInt 0) = Return (PyInt 0)
  ∧ __getitem__ (__setitem__ (new (PyStr "status_codes")) "ok" (PyInt 200))
      "name" = Return (PyStr "status_codes").
Proof.
  apply (lookup_reads_attributes (PyStr "status_codes")
           (new (PyStr "status_codes")) "ok" (PyInt 200) (PyInt 0)).
  - reflexivity.
  - discriminate.
Defined.

End LookupDictSpec.

(** ** NetworkTraffic: what each method computes *)

Module NetworkTrafficFacts.
Import NetworkTraffic.
Local Open Scope Z_scope.
Implicit Types (h : list obj) (a b c l : loc) (u d : Z).

Lemma new_run h u d :
  new u d h = (Return (length h), h ++ [Traffic u d]).
Proof.
  unfold new, __init__, set_upload, set_download. run.
  rewrite HeapFacts.lookup_fresh. simpl.
  rewrite HeapFacts.insert_fresh, HeapFacts.lookup_fresh. simpl.
  by rewrite HeapFacts.insert_fresh.
Qed.

Lemma add_run h a b ua da ub db :
  h !! a = Some (Traffic ua da) → h !! b = Some (Traffic ub db) →
  __add__ a b h
  = (Return (Answer (length h)), h ++ [Traffic (ua + ub) (da + db)]).
Proof.
  intros Ha Hb. pose proof (new_run h (ua + ub) (da + db)) as Hn.
  revert Hn. unfold __add__, get_upload, get_download. run. intros Hn.
  repeat (first [rewrite Ha | rewrite Hb]; simpl).
  by rewrite Hn.
Qed.

(** [self += other], also when [other] is [self]. *)
Lemma iadd_run h a b ua da ub db :
  h !! a = Some (Traffic ua da) → h !! b = Some (Traffic ub db) →
  __iadd__ a b h
  = (Return (Answer a), <[a := Traffic (ua + ub) (da + db)]> h).
Proof.
  intros Ha Hb. pose proof (lookup_lt_Some _ _ _ Ha) as Hlt.
  unfold __iadd__, get_upload, get_download, set_upload, set_download. run.
  repeat (first [rewrite Ha | rewrite Hb]; simpl).
  rewrite list_lookup_insert_eq by done. simpl.
  destruct (decide (a = b)) as [<- | Hne].
  - repeat (rewrite list_lookup_insert_eq by done; simpl).
    rewrite list_insert_insert_eq. by simplify_eq.
  - rewrite list_lookup_insert_ne by done. rewrite Hb. simpl.
    rewrite list_lookup_insert_eq by done. simpl.
    by rewrite list_insert_insert_eq.
Qed.



Lemma fields_fresh h u d : fields (h ++ [Traffic u d]) (length h) = Some (u, d).
Proof. unfold fields. by rewrite HeapFacts.lookup_fresh. Qed.

Lemma fields_old h o l u d :
  h !! l = Some (Traffic u d) → fields (h ++ [o]) l = Some (u, d).
Proof. intros E. unfold fields. by rewrite (HeapFacts.lookup_old h o l _ E). Qed.

(** The value of [x + y] is the field-wise sum. *)
Lemma value_of_add h a b ua da ub db :
  h !! a = Some (Traffic ua da) → h !! b = Some (Traffic ub db) →
  add a b h = (Return (length h), h ++ [Traffic (ua + ub) (da + db)]).
Proof.
  intros Ha Hb. pose proof (add_run h a b ua da ub db Ha Hb) as Hadd.
  revert Hadd. unfold add. run. by intros ->.
Qed.

End NetworkTrafficFacts.

(** ** NetworkTraffic: the specification *)

Module NetworkTrafficSpec.
Import NetworkTraffic NetworkTrafficFacts.
Local Open Scope Z_scope.

(** C3. [a + b] returns a new object whose fields are the field-wise sums
    and leaves [a], [b] and every other object as they were; [a += b]
    writes the field-wise sums into [a] itself and returns [a]; the fields
    of [a] after [a += b] are those of [a + b] computed before it.
    (100, 200) + (50, 150) has the fields of (150, 350), and so has (0, 0)
    once (100, 200) and then (50, 150) have been added to it in place. *)
Theorem add_and_iadd :
  (∀ (h : list obj) (a b : loc) (ua da ub db : Z),
     h !! a = Some (Traffic ua da) → h !! b = Some (Traffic ub db) →
     (∃ c h', __add__ a b h = (Return (Answer c), h')
        ∧ fields h' c = Some (ua + ub, da + db)
        ∧ c ≠ a ∧ c ≠ b
        ∧ fields h' a = Some (ua, da) ∧ fields h' b = Some (ub, db)
        ∧ (∀ l o, h !! l = Some o → h' !! l = Some o))
     ∧ (∃ h', __iadd__ a b h = (Return (Answer a), h')
        ∧ fields h' a = Some (ua + ub, da + db)
        ∧ (∀ l, l ≠ a → h' !! l = h !! l)
        ∧ length h' = length h
        ∧ fields h' a = value_of (add a b) h))
  ∧ (∀ h0 : list obj,
       value_of (a ← new 100 200; b ← new 50 150; add a b) h0
       = Some (150, 350)
       ∧ value_of (new 150 350) h0 = Some (150, 350))
  ∧ (∀ h0 : list obj,
       value_of (t ← new 0 0; x ← new 100 200; y ← new 50 150;
                 t ← iadd t x; iadd t y) h0
       = Some (150, 350)
       ∧ value_of (x ← new 100 200; y ← new 50 150; add x y) h0
         = Some (150, 350)).
Proof.
  assert (Hsum : ∀ h0 : list obj,
            value_of (a ← new 100 200; b ← new 50 150; add a b) h0
            = Some (150, 350)).
  { intros h0. unfold value_of. run. rewrite new_run. simpl.
    rewrite new_run. simpl.
    rewrite (value_of_add _ _ _ 100 200 50 150).
    - by rewrite fields_fresh.
    - apply HeapFacts.lookup_fresh2_fst.
    - apply HeapFacts.lookup_fresh. }
  split_and!.
  - intros h a b ua da ub db Ha Hb. split.
    + exists (length h), (h ++ [Traffic (ua + ub) (da + db)]).
      pose proof (lookup_lt_Some _ _ _ Ha) as Hlta.
      pose proof (lookup_lt_Some _ _ _ Hb) as Hltb.
      split; [by apply add_run|]. split; [apply fields_fresh|].
      split; [lia|]. split; [lia|].
      split; [by apply fields_old|]. split; [by apply fields_old|].
      intros l o. apply HeapFacts.lookup_old.
    + exists (<[a := Traffic (ua + ub) (da + db)]> h).
      assert (Hf : fields (<[a := Traffic (ua + ub) (da + db)]> h) a
                   = Some (ua + ub, da + db)).
      { unfold fields. by rewrite (HeapFacts.lookup_insert_same _ _ _ _ Ha). }
      split; [by apply iadd_run|]. split; [done|].
      split; [intros l Hl; by rewrite list_lookup_insert_ne|].
      split; [apply length_insert|].
      rewrite Hf. unfold value_of.
      rewrite (value_of_add h a b ua da ub db Ha Hb).
      by rewrite fields_fresh.
  - intros h0. split; [apply Hsum|].
    unfold value_of. by rewrite new_run, fields_fresh.
  - intros h0. split; [|apply Hsum].
    unfold value_of, iadd. run. rewrite !new_run. simpl.
    set (h3 := ((h0 ++ [Traffic 0 0]) ++ [Traffic 100 200])
               ++ [Traffic 50 150]).
    assert (Ht : h3 !! length h0 = Some (Traffic 0 0)).
    { apply HeapFacts.lookup_old, HeapFacts.lookup_fresh2_fst. }
    assert (Hx : h3 !! length (h0 ++ [Traffic 0 0])
                 = Some (Traffic 100 200)).
    { apply HeapFacts.lookup_fresh2_fst. }
    assert (Hy : h3 !! length ((h0 ++ [Traffic 0 0]) ++ [Traffic 100 200])
                 = Some (Traffic 50 150)).
    { apply HeapFacts.lookup_fresh. }
    pose proof (lookup_lt_Some _ _ _ Ht) as Hlt.
    rewrite (iadd_run h3 _ _ 0 0 100 200 Ht Hx). simpl.
    rewrite (iadd_run _ (length h0) _ (0 + 100) (0 + 200) 50 150).
    + simpl. unfold fields. by rewrite list_lookup_insert_eq by
        (by rewrite length_insert).
    + by apply list_lookup_insert_eq.
    + rewrite list_lookup_insert_ne; [done|].
      rewrite !HeapFacts.length_snoc. lia.
Qed.

Lemma add_and_iadd_witness :
  (∃ c h', __add__ 0%nat 1%nat [Traffic 100 200; Traffic 50 150]
           = (Return (Answer c), h')
     ∧ fields h' c = Some (100 + 50, 200 + 150)
     ∧ c ≠ 0%nat ∧ c ≠ 1%nat
     ∧ fields h' 0%nat = Some (100, 200) ∧ fields h' 1%nat = Some (50, 150)
     ∧ (∀ l o, [Traffic 100 200; Traffic 50 150] !! l = Some o
               → h' !! l = Some o))
  ∧ (∃ h', __iadd__ 0%nat 1%nat [Traffic 100 200; Traffic 50 150]
           = (Return (Answer 0%nat), h')
     ∧ fields h' 0%nat = Some (100 + 50, 200 + 150)
     ∧ (∀ l, l ≠ 0%nat → h' !! l = [Traffic 100 200; Traffic 50 150] !! l)
     ∧ length h' = length [Traffic 100 200; Traffic 50 150]
     ∧ fields h' 0%nat
       = value_of (add 0%nat 1%nat) [Traffic 100 200; Traffic 50 150]).
Proof.
  apply (proj1 add_and_iadd [Traffic 100 200; Traffic 50 150] 0%nat 1%nat
           100 200 50 150); reflexivity.
Defined.

(** C9. Under [+] the values form a commutative monoid: [a + (b + c)] and
    [(a + b) + c] have the same fields, so have [a + b] and [b + a], and
    [a + NetworkTraffic(0, 0)] has the fields of [a]. *)
Theorem add_commutative_monoid (h : list obj) (a b c : loc)
    (ua da ub db uc dc : Z) :
  h !! a = Some (Traffic ua da) → h !! b = Some (Traffic ub db) →
  h !! c = Some (Traffic uc dc) →
  value_of (bc ← add b c; add a bc) h = value_of (ab ← add a b; add ab c) h
  ∧ value_of (ab ← add a b; add ab c) h
    = Some (ua + ub + uc, da + db + dc)
  ∧ value_of (add a b) h = value_of (add b a) h
  ∧ value_of (add a b) h = Some (ua + ub, da + db)
  ∧ value_of (z ← new 0 0; add a z) h = fields h a
  ∧ value_of (z ← new 0 0; add z a) h = fields h a.
Proof.
  intros Ha Hb Hc.
  assert (Hl : value_of (bc ← add b c; add a bc) h
               = Some (ua + (ub + uc), da + (db + dc))).
  { unfold value_of. run.
    rewrite (value_of_add h b c ub db uc dc Hb Hc). simpl.
    rewrite (value_of_add _ a (length h) ua da (ub + uc) (db + dc)).
    - by rewrite fields_fresh.
    - by apply HeapFacts.lookup_old.
    - apply HeapFacts.lookup_fresh. }
  assert (Hr : value_of (ab ← add a b; add ab c) h
               = Some (ua + ub + uc, da + db + dc)).
  { unfold value_of. run.
    rewrite (value_of_add h a b ua da ub db Ha Hb). simpl.
    rewrite (value_of_add _ (length h) c (ua + ub) (da + db) uc dc).
    - by rewrite fields_fresh.
    - apply HeapFacts.lookup_fresh.
    - by apply HeapFacts.lookup_old. }
  assert (Hab : ∀ x y ux dx uy dy,
            h !! x = Some (Traffic ux dx) → h !! y = Some (Traffic uy dy) →
            value_of (add x y) h = Some (ux + uy, dx + dy)).
  { intros x y ux dx uy dy Hx Hy. unfold value_of.
    rewrite (value_of_add h x y ux dx uy dy Hx Hy). by rewrite fields_fresh. }
  split_and!.
  - rewrite Hl, Hr. do 2 f_equal; lia.
  - done.
  - rewrite (Hab a b _ _ _ _ Ha Hb), (Hab b a _ _ _ _ Hb Ha).
    do 2 f_equal; lia.
  - by apply Hab.
  - unfold value_of. run. rewrite new_run. simpl.
    rewrite (value_of_add _ a (length h) ua da 0 0).
    + rewrite fields_fresh. unfold fields. rewrite Ha. do 2 f_equal; lia.
    + by apply HeapFacts.lookup_old.
    + apply HeapFacts.lookup_fresh.
  - unfold value_of. run. rewrite new_run. simpl.
    rewrite (value_of_add _ (length h) a 0 0 ua da).
    + rewrite fields_fresh. unfold fields. by rewrite Ha.
    + apply HeapFacts.lookup_fresh.
    + by apply HeapFacts.lookup_old.
Qed.

Lemma add_commutative_monoid_witness :
  value_of (bc ← add 1%nat 2%nat; add 0%nat bc)
    [Traffic 1 2; Traffic 30 40; Traffic 500 600]
  = value_of (ab ← add 0%nat 1%nat; add ab 2%nat)
      [Traffic 1 2; Traffic 30 40; Traffic 500 600].
Proof.
  apply (add_commutative_monoid [Traffic 1 2; Traffic 30 40; Traffic 500 600]
           0%nat 1%nat 2%nat 1 2 30 40 500 600); reflexivity.
Defined.

End NetworkTrafficSpec.

(** * Further properties *)

(** ** CaseInsensitiveDict: more of what the methods compute *)

Module CaseInsensitiveDictMoreFacts.
Import CaseInsensitiveDict CaseInsensitiveDictFacts.
Section facts.
Context {V : Type} `{EqDecision V}.
Variable lower : string → string.
Implicit Types (h : list (@obj V)) (self other l : loc)
  (st : PyDict.t (string * V)) (key : string) (value : V).

(** The pair found under a lowercased key after filling: the last of the
    pairs filled in under it, or what the store held before. *)
Lemma lookup_fill st (ps : list (string * V)) f :
  PyDict.lookup (fill lower st ps) f
  = match last (filter (λ p, lower p.1 = f) ps) with
    | Some p => Some p
    | None => PyDict.lookup st f
    end.
Proof.
  revert st. induction ps as [|p ps IH]; intros st; [done|].
  change (fill lower st (p :: ps))
    with (fill lower (PyDict.set st (lower p.1) p) ps).
  rewrite IH. destruct (decide (lower p.1 = f)) as [E | E].
  - rewrite filter_cons_True by done. rewrite last_cons.
    destruct (last (filter _ ps)); [done|].
    by rewrite <- E, PyDictFacts.lookup_set_eq.
  - rewrite filter_cons_False by done.
    destruct (last (filter _ ps)); [done|].
    by rewrite PyDictFacts.lookup_set_ne.
Qed.

Lemma last_filter_is_Some {A} (P : A → Prop) `{∀ x, Decision (P x)}
    (xs : list A) :
  is_Some (last (filter P xs)) ↔ ∃ x, x ∈ xs ∧ P x.
Proof.
  rewrite last_is_Some. split.
  - intros Hne. destruct (filter P xs) as [|x l] eqn:E; [done|].
    assert (Hx : x ∈ filter P xs) by (rewrite E; left).
    apply list_elem_of_filter in Hx as [HP Hx]. by exists x.
  - intros (x & Hx & HP) E.
    assert (Hin : x ∈ filter P xs) by (apply list_elem_of_filter; done).
    rewrite E in Hin. by apply elem_of_nil in Hin.
Qed.

Lemma keys_fill_nil (ps : list (string * V)) f :
  f ∈ PyDict.keys (fill lower [] ps) ↔ f ∈ lower <$> ps.*1.
Proof.
  rewrite <- PyDictFacts.lookup_is_Some_keys, lookup_fill. simpl.
  rewrite list_elem_of_fmap. split.
  - intros Hs.
    assert (Hl : is_Some (last (filter (λ p, lower p.1 = f) ps))).
    { destruct (last _); [eauto | by destruct Hs]. }
    apply last_filter_is_Some in Hl as (p & Hp & Hf).
    exists p.1. split; [done|]. apply list_elem_of_fmap. by exists p.
  - intros (k & -> & Hk). apply list_elem_of_fmap in Hk as (p & -> & Hp).
    assert (Hl : is_Some (last (filter (λ q, lower q.1 = lower p.1) ps))).
    { apply last_filter_is_Some. by exists p. }
    destruct Hl as [q ->]. eauto.
Qed.

(** As many entries as distinct lowercased keys. *)
Lemma length_fill_nil (ps : list (string * V)) :
  length (fill lower [] ps) = length (remove_dups (lower <$> ps.*1)).
Proof.
  assert (Hp : PyDict.keys (fill lower [] ps)
               ≡ₚ remove_dups (lower <$> ps.*1)).
  { apply NoDup_Permutation.
    - apply (wf_fill lower [] ps), wf_nil.
    - apply NoDup_remove_dups.
    - intros f. by rewrite keys_fill_nil, elem_of_remove_dups. }
  apply Permutation_length in Hp. unfold PyDict.keys in Hp.
  by rewrite length_fmap in Hp.
Qed.

(** *** The constructor, when [data] is [None], a plain dict or a map *)

(** The heap once [new] has run with [data=None]: the instance, its store
    and the empty dict that stood for [data]. *)
Lemma new_none_run h (kwargs : list (string * V)) :
  new lower DataNone kwargs h
  = (Return (length h), grown h (fill lower [] kwargs) ++ [Dict []]).
Proof.
  pose proof (init_store_run h) as Hi.
  assert (Hc : cid_at (grown h [] ++ [Dict []]) (length h) (S (length h)) []).
  { destruct (grown_cid_at h []) as [H1 H2].
    split; by apply HeapFacts.lookup_old. }
  pose proof (setitems_run lower _ _ _ _ kwargs Hc) as Hk.
  assert (Hd : (grown h [] ++ [Dict []]) !! length (grown h [])
               = Some (Dict [])) by apply HeapFacts.lookup_fresh.
  revert Hi Hk. unfold new, __init__, update, iter_of. run.
  intros -> Hk. rewrite Hd. simpl. rewrite Hk. f_equal.
  unfold grown. rewrite <- !app_assoc. simpl.
  rewrite insert_app_r_alt by lia.
  by replace (S (length h) - length h) with 1 by lia.
Qed.

(** Filling from a plain dict, key by key. *)
Lemma update_dict_loop_run h self l st other d (ps : list (string * V)) :
  cid_at h self l st → h !! other = Some (Dict d) →
  Forall (λ p, PyDict.lookup d p.1 = Some p.2) ps →
  Heap.for_each (ps.*1)
    (λ key, v ← getitem_of lower other key; __setitem__ lower self key v) h
  = (Return tt, <[l := OrderedDict (fill lower st ps)]> h).
Proof.
  intros Hs Ho. revert h st Hs Ho.
  induction ps as [|[k v] ps IH]; intros h st Hs Ho Hall; csimpl.
  - run. rewrite list_insert_id; [done | apply Hs].
  - apply Forall_cons in Hall as [Hk Hall]. simpl in Hk.
    unfold Heap.bind at 1. unfold getitem_of at 1, PyDict.__getitem__. run.
    rewrite Ho. simpl. rewrite Hk. simpl.
    rewrite (setitem_run lower h self l st k v Hs).
    erewrite IH; [| by eapply cid_at_store | | done].
    + by rewrite HeapFacts.insert_insert_same.
    + rewrite list_lookup_insert_ne; [done|]. intros ->.
      destruct Hs as [_ Hl]. congruence.
Qed.

Lemma dict_items_lookup (d : PyDict.t V) :
  NoDup (PyDict.keys d) → Forall (λ p, PyDict.lookup d p.1 = Some p.2) d.
Proof.
  intros Hnd. apply Forall_forall. intros [k v] Hin.
  by apply PyDictFacts.elem_lookup.
Qed.

Lemma new_dict_run h other (d : PyDict.t V) (kwargs : list (string * V)) :
  h !! other = Some (Dict d) → NoDup (PyDict.keys d) →
  new lower (DataRef other) kwargs h
  = (Return (length h), grown h (fill lower [] (d ++ kwargs))).
Proof.
  intros Ho Hnd. pose proof (init_store_run h) as Hi.
  pose proof (grown_old h [] _ _ Ho) as Ho'.
  pose proof (update_dict_loop_run _ _ _ [] other d d
                (grown_cid_at h []) Ho' (dict_items_lookup d Hnd)) as Hu.
  rewrite grown_store in Hu.
  pose proof (setitems_run lower _ _ _ _ kwargs
                (grown_cid_at h (fill lower [] d))) as Hk.
  rewrite grown_store, fill_app in Hk.
  revert Hi Hu Hk. unfold new, __init__, update, iter_of. run.
  intros -> Hu Hk. rewrite Ho'. simpl.
  unfold PyDict.keys. by rewrite Hu, Hk.
Qed.

Lemma new_cid_kwargs_run h other lo sb (kwargs : list (string * V)) :
  cid_at h other lo sb → wf lower sb →
  new lower (DataRef other) kwargs h
  = (Return (length h), grown h (fill lower sb kwargs)).
Proof.
  intros Ho Hwf. pose proof (init_store_run h) as Hi.
  pose proof (grown_cid_at_old h [] _ _ _ Ho) as Ho'.
  assert (Hne : S (length h) ≠ lo).
  { destruct Ho as [_ Hlo%lookup_lt_Some]. lia. }
  assert (Hall : Forall (λ p, ∃ k', PyDict.lookup sb (lower p.1)
                                    = Some (k', p.2)) (PyDict.values sb)).
  { apply Forall_forall. intros [k v] Hin.
    apply list_elem_of_fmap in Hin as ([f kv] & E & Hin). simpl in E. subst kv.
    exists k. by apply (wf_lookup_entry lower sb (f, (k, v))). }
  pose proof (update_loop_run lower _ _ _ [] other lo sb (PyDict.values sb)
                (grown_cid_at h []) Ho' Hne Hall) as Hu.
  rewrite grown_store, (fill_values lower sb Hwf) in Hu.
  pose proof (setitems_run lower _ _ _ _ kwargs (grown_cid_at h sb)) as Hk.
  rewrite grown_store in Hk.
  pose proof (iter_run _ _ _ _ Ho') as Hit.
  revert Hi Hu Hk Hit. unfold new, __init__, update, iter_of. run.
  intros -> Hu Hk Hit. rewrite (proj1 Ho'), Hit. by rewrite Hu, Hk.
Qed.

(** *** [get], [values] *)

Lemma get_run h self l st key (default : V) :
  cid_at h self l st →
  get lower self key default h
  = (Return match PyDict.lookup st (lower key) with
            | Some kv => kv.2
            | None => default
            end, h).
Proof.
  intros Hc. unfold get. run. rewrite (getitem_run lower h self l st key Hc).
  by destruct (PyDict.lookup st (lower key)).
Qed.

Lemma collect_values_run h self l st (ps : list (string * V)) :
  cid_at h self l st →
  Forall (λ p, ∃ k', PyDict.lookup st (lower p.1) = Some (k', p.2)) ps →
  Heap.collect (ps.*1) (λ key, __getitem__ lower self key) h
  = (Return (ps.*2), h).
Proof.
  intros Hc. induction ps as [|[k v] ps IH]; intros Hall; csimpl; [done|].
  apply Forall_cons in Hall as [[k' Hk] Hall]. simpl in Hk.
  pose proof (getitem_run lower h self l st k Hc) as Hg. rewrite Hk in Hg.
  specialize (IH Hall). revert Hg IH. run. by intros -> ->.
Qed.

Lemma values_run h self l st :
  cid_at h self l st → wf lower st →
  values lower self h = (Return ((PyDict.values st).*2), h).
Proof.
  intros Hc Hwf.
  assert (Hall : Forall (λ p, ∃ k', PyDict.lookup st (lower p.1)
                                    = Some (k', p.2)) (PyDict.values st)).
  { apply Forall_forall. intros [k v] Hin.
    apply list_elem_of_fmap in Hin as ([f kv] & E & Hin). simpl in E. subst kv.
    exists k. by apply (wf_lookup_entry lower st (f, (k, v))). }
  pose proof (collect_values_run h self l st _ Hc Hall) as Hcol.
  pose proof (iter_run h self l st Hc) as Hit.
  revert Hcol Hit. unfold values. run. by intros Hcol ->.
Qed.

(** *** Comparison with a plain dict; comparison as a relation *)

Lemma eq_dict_run h self l sa other (d : PyDict.t V) :
  cid_at h self l sa → wf lower sa →
  h !! other = Some (Dict d) → NoDup (PyDict.keys d) →
  __eq__ lower self other h
  = (Return (Answer (PyDict.eqb ((λ p, (p.1, p.2.2)) <$> sa)
                       ((λ p, (p.1, p.2.2)) <$> fill lower [] d))),
     grown h (fill lower [] d)).
Proof.
  intros Hs Hwa Ho Hnd.
  pose proof (new_dict_run h other d [] Ho Hnd) as Hn.
  rewrite app_nil_r in Hn.
  pose proof (lower_items_run _ _ _ _
                (grown_cid_at_old h (fill lower [] d) _ _ _ Hs)) as Ha.
  pose proof (lower_items_run _ _ _ _ (grown_cid_at h (fill lower [] d)))
    as Hb.
  pose proof (wf_fill lower [] d (wf_nil lower)) as Hwd.
  revert Hn Ha Hb. unfold __eq__. run. rewrite Ho. simpl.
  intros -> -> ->.
  rewrite !PyDictFacts.of_pairs_NoDup; [done | |];
    rewrite keys_lower_items; [apply Hwd | apply Hwa].
Qed.

Lemma eqb_lower_items_sym (sa sb : list (string * (string * V))) :
  wf lower sa → wf lower sb →
  PyDict.eqb ((λ p, (p.1, p.2.2)) <$> sa) ((λ p, (p.1, p.2.2)) <$> sb)
  = PyDict.eqb ((λ p, (p.1, p.2.2)) <$> sb) ((λ p, (p.1, p.2.2)) <$> sa).
Proof.
  intros Ha Hb. apply Bool.eq_true_iff_eq.
  rewrite (eqb_lower_items lower sa sb Ha Hb).
  rewrite (eqb_lower_items lower sb sa Hb Ha).
  split; intros Hf f; symmetry; apply Hf.
Qed.

(** *** Deleting *)

Lemma remove_set_absent st f (e : string * V) :
  PyDict.lookup st f = None → PyDict.remove (PyDict.set st f e) f = st.
Proof.
  induction st as [|[f' e'] st IH]; simpl.
  - intros _. by rewrite decide_True.
  - case_decide; [done|]. intros E. simpl. rewrite decide_False by done.
    by rewrite IH.
Qed.

(** The keys iterated before and after the entry at a position goes. *)
Lemma iter_remove (d1 d2 : PyDict.t (string * V)) f e :
  f ∉ PyDict.keys d1 →
  (PyDict.values (PyDict.remove (d1 ++ (f, e) :: d2) f)).*1
  = delete (length d1) ((PyDict.values (d1 ++ (f, e) :: d2)).*1).
Proof.
  unfold PyDict.keys, PyDict.values.
  induction d1 as [|[f' e'] d1 IH]; csimpl.
  - intros _. by rewrite decide_True.
  - rewrite not_elem_of_cons. intros [Hne Hni].
    rewrite decide_False by done. csimpl. by rewrite IH.
Qed.

End facts.
End CaseInsensitiveDictMoreFacts.

(** ** CaseInsensitiveDict: further properties *)

Module CaseInsensitiveDictProps.
Import CaseInsensitiveDict CaseInsensitiveDictFacts
  CaseInsensitiveDictMoreFacts.

(** X1. [len(self)] is the number of keys iteration yields. Setting a key
    adds one to it exactly when no spelling of the key is in the map, and
    leaves it unchanged otherwise; deleting a key that is in the map takes
    one off it, and deleting one that is not raises [KeyError] and changes
    nothing. *)
Theorem len_tracks_entries {V : Type} (lower : string → string)
    (h : list (@obj V)) (self l : loc) st (key : string) (value : V) :
  cid_at h self l st →
  ∃ n b ks h1,
    __len__ self h = (Return n, h)
    ∧ __iter__ self h = (Return ks, h) ∧ length ks = n
    ∧ __contains__ lower self key h = (Return b, h)
    ∧ __setitem__ lower self key value h = (Return tt, h1)
    ∧ __len__ self h1 = (Return (if b then n else S n), h1)
    ∧ (if b
       then ∃ h2 m, __delitem__ lower self key h = (Return tt, h2)
                    ∧ __len__ self h2 = (Return m, h2) ∧ n = S m
       else __delitem__ lower self key h = (Raise (KeyError (lower key)), h)).
Proof.
  intros Hc.
  pose proof (cid_at_store h self l st
                (PyDict.set st (lower key) (key, value)) Hc) as Hc1.
  pose proof (cid_at_store h self l st
                (PyDict.remove st (lower key)) Hc) as Hc2.
  eexists _, _, _, _.
  split; [by eapply len_run|]. split; [by eapply iter_run|].
  split; [unfold PyDict.values; by rewrite !length_fmap|].
  split; [by eapply contains_run|]. split; [by eapply setitem_run|].
  rewrite (len_run _ _ _ _ Hc1), PyDictFacts.length_set.
  rewrite (delitem_run lower h self l st key Hc).
  destruct (PyDict.lookup st (lower key)) as [e|] eqn:E; simpl.
  - split; [done|]. eexists _, _. split; [done|].
    split; [by eapply len_run|].
    symmetry. by eapply PyDictFacts.length_remove.
  - done.
Qed.

Lemma len_tracks_entries_witness :
  ∃ n b ks h1,
    __len__ 0 (grown [] [("accept", ("Accept", "json"))])
    = (Return n, grown [] [("accept", ("Accept", "json"))])
    ∧ __iter__ 0 (grown [] [("accept", ("Accept", "json"))])
      = (Return ks, grown [] [("accept", ("Accept", "json"))])
    ∧ length ks = n
    ∧ __contains__ str_lower 0 "Host" (grown [] [("accept", ("Accept", "json"))])
      = (Return b, grown [] [("accept", ("Accept", "json"))])
    ∧ __setitem__ str_lower 0 "Host" "a"
        (grown [] [("accept", ("Accept", "json"))])
      = (Return tt, h1)
    ∧ __len__ 0 h1 = (Return (if b then n else S n), h1)
    ∧ (if b
       then ∃ h2 m, __delitem__ str_lower 0 "Host"
                      (grown [] [("accept", ("Accept", "json"))])
                    = (Return tt, h2)
                    ∧ __len__ 0 h2 = (Return m, h2) ∧ n = S m
       else __delitem__ str_lower 0 "Host"
              (grown [] [("accept", ("Accept", "json"))])
            = (Raise (KeyError (str_lower "Host")),
               grown [] [("accept", ("Accept", "json"))])).
Proof.
  apply (len_tracks_entries str_lower
           (grown [] [("accept", ("Accept", "json"))]) 0 1
           [("accept", ("Accept", "json"))] "Host" "a").
  split; reflexivity.
Defined.

(** X2. A map built from pairs and keyword pairs has as many entries as
    there are distinct lowercased keys among them. *)
Theorem constructor_len {V : Type} (lower : string → string)
    (h : list (@obj V)) (ps kwargs : list (string * V)) :
  ∃ c h', new lower (DataPairs ps) kwargs h = (Return c, h')
          ∧ __len__ c h'
            = (Return (length (remove_dups (lower <$> (ps ++ kwargs).*1))),
               h').
Proof.
  eexists _, _. split; [apply new_pairs_run|].
  rewrite (len_run _ _ _ _ (grown_cid_at h _)).
  by rewrite length_fill_nil.
Qed.

(** X3. In a map built from pairs and keyword pairs, a key reads as the
    value of the last pair, keyword pairs coming after the others, whose key
    has the same lowercased form, and the map records that pair's spelling;
    a key with no such pair raises [KeyError]. Building the map changes no
    object that was there. *)
Theorem constructor_last_wins {V : Type} (lower : string → string)
    (h : list (@obj V)) (ps kwargs : list (string * V)) (key : string) :
  ∃ c st h',
    new lower (DataPairs ps) kwargs h = (Return c, h')
    ∧ entries h' c = Some st
    ∧ PyDict.lookup st (lower key)
      = last (filter (λ p, lower p.1 = lower key) (ps ++ kwargs))
    ∧ __getitem__ lower c key h'
      = (match last (filter (λ p, lower p.1 = lower key) (ps ++ kwargs)) with
         | Some p => Return p.2
         | None => Raise (KeyError (lower key))
         end, h')
    ∧ (∀ l o, h !! l = Some o → h' !! l = Some o).
Proof.
  pose proof (grown_cid_at h (fill lower [] (ps ++ kwargs))) as Hc.
  assert (Hl : PyDict.lookup (fill lower [] (ps ++ kwargs)) (lower key)
               = last (filter (λ p, lower p.1 = lower key) (ps ++ kwargs))).
  { rewrite lookup_fill. by destruct (last _). }
  eexists _, _, _. split; [apply new_pairs_run|].
  split; [by eapply cid_at_entries|]. split; [done|].
  split; [by rewrite (getitem_run lower _ _ _ _ key Hc), Hl|].
  intros l o. apply grown_old.
Qed.

(** X4. Without [data] the map holds just the keyword pairs, as the map
    built from them as pairs does; with neither it is empty: length 0,
    nothing to iterate, every key raises [KeyError] and is not contained. *)
Theorem constructor_without_data {V : Type} (lower : string → string)
    (h : list (@obj V)) (kwargs : list (string * V)) (key : string) :
  (∃ c h' h2,
     new lower DataNone kwargs h = (Return c, h')
     ∧ new lower (DataPairs kwargs) [] h = (Return c, h2)
     ∧ entries h' c = entries h2 c
     ∧ (∀ l o, h !! l = Some o → h' !! l = Some o))
  ∧ (∃ c h',
       new lower DataNone [] h = (Return c, h')
       ∧ __len__ c h' = (Return 0, h')
       ∧ __iter__ c h' = (Return [], h')
       ∧ __getitem__ lower c key h' = (Raise (KeyError (lower key)), h')
       ∧ __contains__ lower c key h' = (Return false, h')).
Proof.
  assert (Hc : ∀ st, cid_at (grown h st ++ [Dict []])
                       (length h) (S (length h)) st).
  { intros st. destruct (grown_cid_at h st) as [H1 H2].
    split; by apply HeapFacts.lookup_old. }
  split.
  - eexists _, _, _. split; [apply new_none_run|].
    split; [apply new_pairs_run|]. rewrite app_nil_r.
    split.
    + by rewrite (cid_at_entries _ _ _ _ (Hc _)),
        (cid_at_entries _ _ _ _ (grown_cid_at h _)).
    + intros l o Hl. by apply HeapFacts.lookup_old, grown_old.
  - eexists _, _. split; [apply new_none_run|].
    change (fill lower [] []) with (@nil (string * (string * V))).
    split; [by rewrite (len_run _ _ _ _ (Hc []))|].
    split; [by rewrite (iter_run _ _ _ _ (Hc []))|].
    split; [by rewrite (getitem_run lower _ _ _ _ key (Hc []))|].
    by rewrite (contains_run lower _ _ _ _ key (Hc [])).
Qed.

(** X5. Building a map from a plain dict is building it from the dict's
    items in their order, and leaves the dict as it was. *)
Theorem constructor_from_dict {V : Type} (lower : string → string)
    (h : list (@obj V)) (other : loc) (d : PyDict.t V)
    (kwargs : list (string * V)) :
  h !! other = Some (Dict d) → NoDup (PyDict.keys d) →
  new lower (DataRef other) kwargs h = new lower (DataPairs d) kwargs h
  ∧ (new lower (DataRef other) kwargs h).2 !! other = Some (Dict d).
Proof.
  intros Ho Hnd. rewrite (new_dict_run lower h other d kwargs Ho Hnd).
  split; [by rewrite new_pairs_run|]. simpl. by apply grown_old.
Qed.

Lemma constructor_from_dict_witness :
  new str_lower (DataRef 0) [("host", "b")]
    [Dict [("Accept", "x"); ("Host", "a")]]
  = new str_lower (DataPairs [("Accept", "x"); ("Host", "a")]) [("host", "b")]
      [Dict [("Accept", "x"); ("Host", "a")]]
  ∧ (new str_lower (DataRef 0) [("host", "b")]
       [Dict [("Accept", "x"); ("Host", "a")]]).2 !! 0
    = Some (Dict [("Accept", "x"); ("Host", "a")]).
Proof.
  apply (constructor_from_dict str_lower
           [Dict [("Accept", "x"); ("Host", "a")]] 0
           [("Accept", "x"); ("Host", "a")] [("host", "b")]).
  - reflexivity.
  - unfold PyDict.keys. csimpl. apply NoDup_cons.
    split; [|apply NoDup_singleton].
    intros Hin%list_elem_of_singleton. discriminate.
Defined.

(** X6. Building a map from another map does what [copy()] does; with
    keyword pairs on top, a key reads as the last keyword pair for it when
    there is one, and as in the other map when there is none. *)
Theorem constructor_from_map {V : Type} (lower : string → string)
    (h : list (@obj V)) (other lo : loc) sb (kwargs : list (string * V))
    (key : string) :
  cid_at h other lo sb → wf lower sb →
  new lower (DataRef other) [] h = copy lower other h
  ∧ ∃ c h',
      new lower (DataRef other) kwargs h = (Return c, h')
      ∧ c ≠ other
      ∧ cid_at h' other lo sb
      ∧ (__getitem__ lower c key h').1
        = match last (filter (λ p, lower p.1 = lower key) kwargs) with
          | Some p => Return p.2
          | None => (__getitem__ lower other key h).1
          end.
Proof.
  intros Ho Hwf. split.
  - by rewrite (new_cid_run lower h other lo sb Ho Hwf),
      (copy_run lower h other lo sb Ho Hwf).
  - eexists _, _. split; [by eapply new_cid_kwargs_run|].
    split; [destruct Ho as [Ho%lookup_lt_Some _]; lia|].
    split; [by apply grown_cid_at_old|].
    rewrite (getitem_run lower _ _ _ _ key (grown_cid_at h _)).
    rewrite (getitem_run lower _ _ _ _ key Ho). simpl.
    rewrite lookup_fill.
    by destruct (last _), (PyDict.lookup sb (lower key)).
Qed.

Lemma constructor_from_map_witness :
  new str_lower (DataRef 0) [] (grown [] [("accept", ("Accept", "json"))])
  = copy str_lower 0 (grown [] [("accept", ("Accept", "json"))])
  ∧ ∃ c h',
      new str_lower (DataRef 0) [("ACCEPT", "xml")]
        (grown [] [("accept", ("Accept", "json"))])
      = (Return c, h')
      ∧ c ≠ 0
      ∧ cid_at h' 0 1 [("accept", ("Accept", "json"))]
      ∧ (__getitem__ str_lower c "accept" h').1
        = match last (filter (λ p, str_lower p.1 = str_lower "accept")
                        [("ACCEPT", "xml")]) with
          | Some p => Return p.2
          | None => (__getitem__ str_lower 0 "accept"
                       (grown [] [("accept", ("Accept", "json"))])).1
          end.
Proof.
  apply (constructor_from_map str_lower
           (grown [] [("accept", ("Accept", "json"))]) 0 1
           [("accept", ("Accept", "json"))] [("ACCEPT", "xml")] "accept").
  - split; reflexivity.
  - split; [apply NoDup_singleton | by repeat constructor].
Defined.

(** X7. Comparing a map with a plain dict is true exactly when, for every
    lowercased key, the map's value is the value of the dict's last item
    whose key has that lowercased form (both absent counting as equal); the
    comparison changes no object that was there. *)
Theorem eq_plain_dict {V : Type} `{EqDecision V} (lower : string → string)
    (h : list (@obj V)) (self l other : loc) sa (d : PyDict.t V) :
  cid_at h self l sa → wf lower sa →
  h !! other = Some (Dict d) → NoDup (PyDict.keys d) →
  ∃ r h',
    __eq__ lower self other h = (Return (Answer r), h')
    ∧ (r = true
       ↔ ∀ f, folded sa f = snd <$> last (filter (λ p, lower p.1 = f) d))
    ∧ (∀ l0 o, h !! l0 = Some o → h' !! l0 = Some o).
Proof.
  intros Hs Hwa Ho Hnd. eexists _, _.
  split; [by eapply eq_dict_run|].
  split; [|intros l0 o; apply grown_old].
  rewrite (eqb_lower_items lower sa _ Hwa (wf_fill lower [] d (wf_nil lower))).
  assert (Hf : ∀ f, folded (fill lower [] d) f
                    = snd <$> last (filter (λ p, lower p.1 = f) d)).
  { intros f. unfold folded. rewrite lookup_fill. by destruct (last _). }
  by setoid_rewrite Hf.
Qed.

Lemma eq_plain_dict_witness :
  ∃ r h',
    __eq__ str_lower 0 2
      (grown [] [("accept", ("Accept", "x"))] ++ [Dict [("ACCEPT", "x")]])
    = (Return (Answer r), h')
    ∧ (r = true
       ↔ ∀ f, folded [("accept", ("Accept", "x"))] f
              = snd <$> last (filter (λ p, str_lower p.1 = f)
                                [("ACCEPT", "x")]))
    ∧ (∀ l0 o,
         (grown [] [("accept", ("Accept", "x"))] ++ [Dict [("ACCEPT", "x")]])
           !! l0 = Some o → h' !! l0 = Some o).
Proof.
  apply (eq_plain_dict str_lower
           (grown [] [("accept", ("Accept", "x"))] ++ [Dict [("ACCEPT", "x")]])
           0 1 2 [("accept", ("Accept", "x"))] [("ACCEPT", "x")]).
  - split; reflexivity.
  - split; [apply NoDup_singleton | by repeat constructor].
  - reflexivity.
  - apply NoDup_singleton.
Defined.

(** X8. Among maps, [==] is reflexive, symmetric and transitive, and a
    comparison changes no object that was there. *)
Theorem eq_equivalence {V : Type} `{EqDecision V} (lower : string → string)
    (h : list (@obj V)) (a la b lb c lc : loc) sa sb sc :
  cid_at h a la sa → cid_at h b lb sb → cid_at h c lc sc →
  wf lower sa → wf lower sb → wf lower sc →
  (__eq__ lower a a h).1 = Return (Answer true)
  ∧ (__eq__ lower a b h).1 = (__eq__ lower b a h).1
  ∧ ((__eq__ lower a b h).1 = Return (Answer true) →
     (__eq__ lower b c h).1 = Return (Answer true) →
     (__eq__ lower a c h).1 = Return (Answer true))
  ∧ (∀ l0 o, h !! l0 = Some o → (__eq__ lower a b h).2 !! l0 = Some o).
Proof.
  intros Ha Hb Hc Hwa Hwb Hwc.
  rewrite (eq_run lower h a la sa a la sa Ha Ha Hwa Hwa).
  rewrite (eq_run lower h a la sa b lb sb Ha Hb Hwa Hwb).
  rewrite (eq_run lower h b lb sb a la sa Hb Ha Hwb Hwa).
  rewrite (eq_run lower h b lb sb c lc sc Hb Hc Hwb Hwc).
  rewrite (eq_run lower h a la sa c lc sc Ha Hc Hwa Hwc).
  simpl. split_and!.
  - do 2 f_equal. by apply (eqb_lower_items lower).
  - do 2 f_equal. by apply (eqb_lower_items_sym lower).
  - intros [= Hab] [= Hbc]. do 2 f_equal.
    pose proof (proj1 (eqb_lower_items lower sa sb Hwa Hwb) Hab) as Hab'.
    pose proof (proj1 (eqb_lower_items lower sb sc Hwb Hwc) Hbc) as Hbc'.
    apply (proj2 (eqb_lower_items lower sa sc Hwa Hwc)).
    intros f. by rewrite Hab'.
  - intros l0 o. apply grown_old.
Qed.

Lemma eq_equivalence_witness :
  (__eq__ str_lower 0 2
     (grown (grown [] [("accept", ("Accept", "x"))])
        [("accept", ("ACCEPT", "x"))])).1
  = (__eq__ str_lower 2 0
       (grown (grown [] [("accept", ("Accept", "x"))])
          [("accept", ("ACCEPT", "x"))])).1.
Proof.
  refine (proj1 (proj2 (eq_equivalence str_lower
           (grown (grown [] [("accept", ("Accept", "x"))])
              [("accept", ("ACCEPT", "x"))])
           0 1 2 3 0 1
           [("accept", ("Accept", "x"))] [("accept", ("ACCEPT", "x"))]
           [("accept", ("Accept", "x"))] _ _ _ _ _ _))).
  - split; reflexivity.
  - split; reflexivity.
  - split; reflexivity.
  - split; [apply NoDup_singleton | by repeat constructor].
  - split; [apply NoDup_singleton | by repeat constructor].
  - split; [apply NoDup_singleton | by repeat constructor].
Defined.

(** X9. [lower_items()] is [items()] with every key lowercased, in the same
    order; its keys are pairwise distinct, and a key's value is found in it
    under the key's lowercased form exactly as subscript access finds it. *)
Theorem lower_items_of_items {V : Type} (lower : string → string)
    (h : list (@obj V)) (self l : loc) st (key : string) :
  cid_at h self l st → wf lower st →
  ∃ its lits,
    items lower self h = (Return its, h)
    ∧ lower_items self h = (Return lits, h)
    ∧ lits = (λ p, (lower p.1, p.2)) <$> its
    ∧ NoDup (lits.*1)
    ∧ __getitem__ lower self key h
      = (match PyDict.lookup lits (lower key) with
         | Some v => Return v
         | None => Raise (KeyError (lower key))
         end, h).
Proof.
  intros Hc Hwf. eexists _, _.
  split; [by eapply items_run|]. split; [by eapply lower_items_run|].
  split.
  { unfold PyDict.values. rewrite <- list_fmap_compose.
    apply Forall_fmap_ext_1. destruct Hwf as [_ Hall].
    eapply Forall_impl; [exact Hall|]. intros [f [k v]] E. simpl in *.
    by rewrite E. }
  split.
  { pose proof (keys_lower_items st) as E. unfold PyDict.keys in E.
    rewrite E. apply Hwf. }
  rewrite (getitem_run lower h self l st key Hc).
  pose proof (lookup_lower_items st (lower key)) as E. unfold folded in E.
  rewrite E. by destruct (PyDict.lookup st (lower key)).
Qed.

Lemma lower_items_of_items_witness :
  ∃ its lits,
    items str_lower 0 (grown [] [("accept", ("Accept", "json"))])
    = (Return its, grown [] [("accept", ("Accept", "json"))])
    ∧ lower_items 0 (grown [] [("accept", ("Accept", "json"))])
      = (Return lits, grown [] [("accept", ("Accept", "json"))])
    ∧ lits = (λ p, (str_lower p.1, p.2)) <$> its
    ∧ NoDup (lits.*1)
    ∧ __getitem__ str_lower 0 "ACCEPT"
        (grown [] [("accept", ("Accept", "json"))])
      = (match PyDict.lookup lits (str_lower "ACCEPT") with
         | Some v => Return v
         | None => Raise (KeyError (str_lower "ACCEPT"))
         end, grown [] [("accept", ("Accept", "json"))]).
Proof.
  apply (lower_items_of_items str_lower
           (grown [] [("accept", ("Accept", "json"))]) 0 1
           [("accept", ("Accept", "json"))] "ACCEPT").
  - split; reflexivity.
  - split; [apply NoDup_singleton | by repeat constructor].
Defined.

(** X10. Deleting a key takes it out of the iteration and leaves the other
    keys in the order they had; setting it again puts it at the end, not
    back where it was. *)
Theorem delete_keeps_order {V : Type} (lower : string → string)
    (h : list (@obj V)) (self l : loc) st (key : string) (value : V) :
  cid_at h self l st → wf lower st →
  __contains__ lower self key h = (Return true, h) →
  ∃ ks i k0 h1 h2,
    __iter__ self h = (Return ks, h)
    ∧ ks !! i = Some k0 ∧ lower k0 = lower key
    ∧ __delitem__ lower self key h = (Return tt, h1)
    ∧ __iter__ self h1 = (Return (delete i ks), h1)
    ∧ __setitem__ lower self key value h1 = (Return tt, h2)
    ∧ __iter__ self h2 = (Return (delete i ks ++ [key]), h2).
Proof.
  intros Hc Hwf. rewrite (contains_run lower h self l st key Hc).
  intros [= Hb]. apply bool_decide_eq_true in Hb as [[k0 v0] E].
  pose proof (wf_lookup_lower lower st _ _ _ Hwf E) as Hk0.
  pose proof (cid_at_store h self l st
                (PyDict.remove st (lower key)) Hc) as Hc1.
  pose proof (PyDictFacts.lookup_remove_eq st (lower key) (proj1 Hwf)) as Hnone.
  pose proof (cid_at_store _ self l _
                (PyDict.set (PyDict.remove st (lower key)) (lower key)
                   (key, value)) Hc1) as Hc2.
  rewrite HeapFacts.insert_insert_same in Hc2.
  destruct (PyDictFacts.remove_present st _ _ E) as (d1 & d2 & Hst & Hni & Hrm).
  assert (Hit : (PyDict.values (PyDict.remove st (lower key))).*1
                = delete (length d1) ((PyDict.values st).*1)).
  { rewrite Hst. by apply iter_remove. }
  eexists ((PyDict.values st).*1), (length d1), k0, _, _.
  split; [by eapply iter_run|]. split.
  { rewrite Hst. unfold PyDict.values. rewrite !fmap_app. csimpl.
    rewrite lookup_app_r; rewrite !length_fmap; [|lia].
    by rewrite Nat.sub_diag. }
  split; [done|]. split.
  { by rewrite (delitem_run lower h self l st key Hc), E. }
  split; [by rewrite (iter_run _ _ _ _ Hc1), Hit|]. split.
  { rewrite (setitem_run lower _ self l _ key value Hc1).
    by rewrite HeapFacts.insert_insert_same. }
  rewrite (iter_run _ _ _ _ Hc2).
  rewrite (PyDictFacts.set_absent _ _ _ Hnone).
  unfold PyDict.values in *. rewrite !fmap_app. csimpl. by rewrite Hit.
Qed.

Lemma delete_keeps_order_witness :
  ∃ ks i k0 h1 h2,
    __iter__ 0 (grown [] [("accept", ("Accept", "x")); ("host", ("Host", "a"))])
    = (Return ks,
       grown [] [("accept", ("Accept", "x")); ("host", ("Host", "a"))])
    ∧ ks !! i = Some k0 ∧ str_lower k0 = str_lower "ACCEPT"
    ∧ __delitem__ str_lower 0 "ACCEPT"
        (grown [] [("accept", ("Accept", "x")); ("host", ("Host", "a"))])
      = (Return tt, h1)
    ∧ __iter__ 0 h1 = (Return (delete i ks), h1)
    ∧ __setitem__ str_lower 0 "ACCEPT" "y" h1 = (Return tt, h2)
    ∧ __iter__ 0 h2 = (Return (delete i ks ++ ["ACCEPT"]), h2).
Proof.
  apply (delete_keeps_order str_lower
           (grown [] [("accept", ("Accept", "x")); ("host", ("Host", "a"))])
           0 1 [("accept", ("Accept", "x")); ("host", ("Host", "a"))]
           "ACCEPT" "y").
  - split; reflexivity.
  - split; [|by repeat constructor].
    unfold PyDict.keys. csimpl. apply NoDup_cons.
    split; [|apply NoDup_singleton].
    intros Hin%list_elem_of_singleton. discriminate.
  - reflexivity.
Defined.

(** X11. Setting a key no spelling of which is in the map and then deleting
    it, under any spelling, puts the whole heap back as it was. *)
Theorem set_then_delete_restores {V : Type} (lower : string → string)
    (h : list (@obj V)) (self l : loc) st (k1 k2 : string) (v : V) :
  cid_at h self l st → lower k1 = lower k2 →
  __contains__ lower self k1 h = (Return false, h) →
  (__setitem__ lower self k1 v ≫= λ _, __delitem__ lower self k2) h
  = (Return tt, h).
Proof.
  intros Hc Hk. rewrite (contains_run lower h self l st k1 Hc).
  intros [= Hb]. apply bool_decide_eq_false in Hb.
  assert (E : PyDict.lookup st (lower k1) = None).
  { destruct (PyDict.lookup st (lower k1)); [|done]. destruct Hb. eauto. }
  pose proof (cid_at_store h self l st
                (PyDict.set st (lower k1) (k1, v)) Hc) as Hc1.
  pose proof (setitem_run lower h self l st k1 v Hc) as Hs.
  pose proof (delitem_run lower _ self l _ k2 Hc1) as Hd.
  rewrite <- Hk, PyDictFacts.lookup_set_eq in Hd.
  rewrite (remove_set_absent st _ _ E) in Hd.
  rewrite HeapFacts.insert_insert_same in Hd.
  rewrite (list_insert_id h l (OrderedDict st) (proj2 Hc)) in Hd.
  revert Hs Hd. run. by intros -> ->.
Qed.

Lemma set_then_delete_restores_witness :
  (__setitem__ str_lower 0 "Host" "a" ≫= λ _, __delitem__ str_lower 0 "HOST")
    (grown [] [("accept", ("Accept", "x"))])
  = (Return tt, grown [] [("accept", ("Accept", "x"))]).
Proof.
  apply (set_then_delete_restores str_lower
           (grown [] [("accept", ("Accept", "x"))]) 0 1
           [("accept", ("Accept", "x"))] "Host" "HOST" "a").
  - split; reflexivity.
  - reflexivity.
  - reflexivity.
Defined.

(** X12. Setting or deleting a key changes nothing for a key with another
    lowercased form: its value, its recorded spelling and whether it is
    contained stay as they were; and no object but the store of the map is
    written. *)
Theorem other_keys_untouched {V : Type} (lower : string → string)
    (h : list (@obj V)) (self l : loc) st (k1 k2 : string) (v : V) :
  cid_at h self l st → lower k1 ≠ lower k2 →
  ∃ h1 h2 st1 st2,
    (__setitem__ lower self k1 v h).2 = h1
    ∧ (__delitem__ lower self k1 h).2 = h2
    ∧ cid_at h1 self l st1 ∧ cid_at h2 self l st2
    ∧ PyDict.lookup st1 (lower k2) = PyDict.lookup st (lower k2)
    ∧ PyDict.lookup st2 (lower k2) = PyDict.lookup st (lower k2)
    ∧ (__getitem__ lower self k2 h1).1 = (__getitem__ lower self k2 h).1
    ∧ (__getitem__ lower self k2 h2).1 = (__getitem__ lower self k2 h).1
    ∧ (__contains__ lower self k2 h1).1 = (__contains__ lower self k2 h).1
    ∧ (__contains__ lower self k2 h2).1 = (__contains__ lower self k2 h).1
    ∧ (∀ l0, l0 ≠ l → h1 !! l0 = h !! l0 ∧ h2 !! l0 = h !! l0).
Proof.
  intros Hc Hne.
  pose proof (cid_at_store h self l st
                (PyDict.set st (lower k1) (k1, v)) Hc) as Hc1.
  pose proof (PyDictFacts.lookup_set_ne st _ _ (k1, v) Hne) as E1.
  pose proof (PyDictFacts.lookup_remove_ne st _ _ Hne) as E2.
  assert (∃ h2 st2,
            (__delitem__ lower self k1 h).2 = h2 ∧ cid_at h2 self l st2
            ∧ PyDict.lookup st2 (lower k2) = PyDict.lookup st (lower k2)
            ∧ (∀ l0, l0 ≠ l → h2 !! l0 = h !! l0))
    as (h2 & st2 & Hd & Hc2 & E2' & Hfr).
  { rewrite (delitem_run lower h self l st k1 Hc).
    destruct (PyDict.lookup st (lower k1)); simpl.
    - eexists _, _. split; [done|]. split; [by eapply cid_at_store|].
      split; [done|]. intros l0 Hl0. by rewrite list_lookup_insert_ne.
    - by exists h, st. }
  exists (<[l := OrderedDict (PyDict.set st (lower k1) (k1, v))]> h), h2,
    (PyDict.set st (lower k1) (k1, v)), st2.
  split; [by rewrite (setitem_run lower h self l st k1 v Hc)|].
  split; [done|]. split; [done|]. split; [done|].
  split; [done|]. split; [done|].
  rewrite (getitem_run lower _ _ _ _ k2 Hc1), (getitem_run lower _ _ _ _ k2 Hc2),
    (getitem_run lower _ _ _ _ k2 Hc).
  rewrite (contains_run lower _ _ _ _ k2 Hc1),
    (contains_run lower _ _ _ _ k2 Hc2), (contains_run lower _ _ _ _ k2 Hc).
  simpl. rewrite E1, E2'. split_and!; try done.
  intros l0 Hl0. split; [by rewrite list_lookup_insert_ne | by apply Hfr].
Qed.

Lemma other_keys_untouched_witness :
  ∃ h1 h2 st1 st2,
    (__setitem__ str_lower 0 "Host" "a"
       (grown [] [("accept", ("Accept", "x"))])).2 = h1
    ∧ (__delitem__ str_lower 0 "Host"
         (grown [] [("accept", ("Accept", "x"))])).2 = h2
    ∧ cid_at h1 0 1 st1 ∧ cid_at h2 0 1 st2
    ∧ PyDict.lookup st1 (str_lower "Accept")
      = PyDict.lookup [("accept", ("Accept", "x"))] (str_lower "Accept")
    ∧ PyDict.lookup st2 (str_lower "Accept")
      = PyDict.lookup [("accept", ("Accept", "x"))] (str_lower "Accept")
    ∧ (__getitem__ str_lower 0 "Accept" h1).1
      = (__getitem__ str_lower 0 "Accept"
           (grown [] [("accept", ("Accept", "x"))])).1
    ∧ (__getitem__ str_lower 0 "Accept" h2).1
      = (__getitem__ str_lower 0 "Accept"
           (grown [] [("accept", ("Accept", "x"))])).1
    ∧ (__contains__ str_lower 0 "Accept" h1).1
      = (__contains__ str_lower 0 "Accept"
           (grown [] [("accept", ("Accept", "x"))])).1
    ∧ (__contains__ str_lower 0 "Accept" h2).1
      = (__contains__ str_lower 0 "Accept"
           (grown [] [("accept", ("Accept", "x"))])).1
    ∧ (∀ l0, l0 ≠ 1 →
         h1 !! l0 = grown [] [("accept", ("Accept", "x"))] !! l0
         ∧ h2 !! l0 = grown [] [("accept", ("Accept", "x"))] !! l0).
Proof.
  apply (other_keys_untouched str_lower
           (grown [] [("accept", ("Accept", "x"))]) 0 1
           [("accept", ("Accept", "x"))] "Host" "Accept" "a").
  - split; reflexivity.
  - discriminate.
Defined.

(** X13. [keys()], [values()] and [items()] line up: the items are the keys
    paired with the values, position by position, and each has [len(self)]
    elements. *)
Theorem views_line_up {V : Type} (lower : string → string)
    (h : list (@obj V)) (self l : loc) st :
  cid_at h self l st → wf lower st →
  ∃ ks vs its n,
    keys self h = (Return ks, h)
    ∧ values lower self h = (Return vs, h)
    ∧ items lower self h = (Return its, h)
    ∧ __len__ self h = (Return n, h)
    ∧ its = zip ks vs
    ∧ length ks = n ∧ length vs = n ∧ length its = n.
Proof.
  intros Hc Hwf. eexists _, _, _, _.
  split; [by eapply iter_run|]. split; [by eapply values_run|].
  split; [by eapply items_run|]. split; [by eapply len_run|].
  unfold PyDict.values. rewrite zip_fst_snd, !length_fmap. done.
Qed.

Lemma views_line_up_witness :
  ∃ ks vs its n,
    keys 0 (grown [] [("accept", ("Accept", "x"))])
    = (Return ks, grown [] [("accept", ("Accept", "x"))])
    ∧ values str_lower 0 (grown [] [("accept", ("Accept", "x"))])
      = (Return vs, grown [] [("accept", ("Accept", "x"))])
    ∧ items str_lower 0 (grown [] [("accept", ("Accept", "x"))])
      = (Return its, grown [] [("accept", ("Accept", "x"))])
    ∧ __len__ 0 (grown [] [("accept", ("Accept", "x"))])
      = (Return n, grown [] [("accept", ("Accept", "x"))])
    ∧ its = zip ks vs
    ∧ length ks = n ∧ length vs = n ∧ length its = n.
Proof.
  apply (views_line_up str_lower (grown [] [("accept", ("Accept", "x"))])
           0 1 [("accept", ("Accept", "x"))]).
  - split; reflexivity.
  - split; [apply NoDup_singleton | by repeat constructor].
Defined.

(** X14. [get(key, default)] never raises on a map: it returns what
    subscript access returns when some spelling of the key is in the map,
    and [default] when none is; it gives the same for two spellings of a
    key, and after [self[k1] = v] it gives [v] for every spelling of [k1]. *)
Theorem get_or_default {V : Type} (lower : string → string)
    (h : list (@obj V)) (self l : loc) st (k1 k2 : string)
    (v default : V) :
  cid_at h self l st → lower k1 = lower k2 →
  get lower self k1 default h = get lower self k2 default h
  ∧ (∃ r, get lower self k1 default h = (Return r, h)
          ∧ (__getitem__ lower self k1 h = (Return r, h)
             ∨ (__getitem__ lower self k1 h
                = (Raise (KeyError (lower k1)), h)
                ∧ __contains__ lower self k1 h = (Return false, h)
                ∧ r = default)))
  ∧ (∃ h1, __setitem__ lower self k1 v h = (Return tt, h1)
           ∧ get lower self k2 default h1 = (Return v, h1)).
Proof.
  intros Hc Hk.
  pose proof (cid_at_store h self l st
                (PyDict.set st (lower k1) (k1, v)) Hc) as Hc1.
  rewrite !(get_run lower h self l st _ default Hc), <- Hk.
  rewrite (getitem_run lower h self l st k1 Hc).
  rewrite (contains_run lower h self l st k1 Hc).
  split; [done|]. split.
  - eexists. split; [done|].
    destruct (PyDict.lookup st (lower k1)); [by left | by right].
  - eexists. split; [by eapply setitem_run|].
    rewrite (get_run lower _ self l _ k2 default Hc1).
    by rewrite <- Hk, PyDictFacts.lookup_set_eq.
Qed.

Lemma get_or_default_witness :
  get str_lower 0 "Accept" "none" (grown [] [("accept", ("Accept", "x"))])
  = get str_lower 0 "ACCEPT" "none" (grown [] [("accept", ("Accept", "x"))]).
Proof.
  refine (proj1 (get_or_default str_lower
                   (grown [] [("accept", ("Accept", "x"))]) 0 1
                   [("accept", ("Accept", "x"))] "Accept" "ACCEPT"
                   "y" "none" _ _)).
  - split; reflexivity.
  - reflexivity.
Defined.

End CaseInsensitiveDictProps.

(** ** Strings and decimal numerals *)

Module StringFacts.
Import Stdlib.Strings.Ascii.

Lemma append_inj_l (s a b : string) : s +:+ a = s +:+ b → a = b.
Proof. induction s as [|c s IH]; simpl; [done|]. intros [= E]. auto. Qed.

(** Two strings cut at the first occurrence of a character are equal only
    if the parts are. *)
Lemma append_sep_inj (c : Ascii.ascii) (a a' r r' : string) :
  Forall (λ x, x ≠ c) (chars a) → Forall (λ x, x ≠ c) (chars a') →
  a +:+ String c r = a' +:+ String c r' → a = a' ∧ r = r'.
Proof.
  revert a'. induction a as [|x a IH]; intros [|x' a'] Ha Ha'; simpl.
  - by intros [= ->].
  - intros [= <- _]. apply Forall_cons in Ha' as [Hx _]. done.
  - intros [= -> _]. apply Forall_cons in Ha as [Hx _]. done.
  - intros [= -> E]. apply Forall_cons in Ha as [_ Ha].
    apply Forall_cons in Ha' as [_ Ha'].
    destruct (IH a' Ha Ha' E) as [-> ->]. done.
Qed.

Lemma append_inj_r (a a' t : string) : a +:+ t = a' +:+ t → a = a'.
Proof.
  assert (Hlen : ∀ x y : string,
            String.length (x +:+ y) = String.length x + String.length y).
  { intros x y. induction x as [|c x IH]; simpl; [done|]. by rewrite IH. }
  revert a'. induction a as [|x a IH]; intros [|x' a']; simpl; try done.
  - intros E. apply (f_equal String.length) in E.
    rewrite !Hlen in E. simpl in E. lia.
  - intros E. apply (f_equal String.length) in E.
    rewrite !Hlen in E. simpl in E. lia.
  - intros [= -> E]. by rewrite (IH a' E).
Qed.

(** A numeral holds digits and, in front, a minus sign: no comma, no
    bracket. *)
Lemma chars_uint (d : Decimal.uint) :
  Forall (λ x, x ≠ ","%char ∧ x ≠ ")"%char)
    (chars (DecimalString.NilEmpty.string_of_uint d)).
Proof. induction d; simpl; constructor; done. Qed.

Lemma chars_uint_zero (d : Decimal.uint) :
  Forall (λ x, x ≠ ","%char ∧ x ≠ ")"%char)
    (chars (DecimalString.NilZero.string_of_uint d)).
Proof.
  destruct d; try apply (chars_uint (_ d)).
  simpl. by repeat constructor.
Qed.

Lemma chars_str_of_int (n : Z) :
  Forall (λ x, x ≠ ","%char ∧ x ≠ ")"%char) (chars (str_of_int n)).
Proof.
  unfold str_of_int, DecimalString.NilZero.string_of_int.
  destruct (Z.to_int n) as [d | d]; [apply chars_uint_zero|].
  simpl. constructor; [done | apply chars_uint_zero].
Qed.

Lemma to_int_not_nil (n : Z) :
  Z.to_int n ≠ Decimal.Pos Decimal.Nil ∧ Z.to_int n ≠ Decimal.Neg Decimal.Nil.
Proof.
  pose proof (DecimalZ.to_of (Z.to_int n)) as E.
  rewrite DecimalZ.of_to in E.
  split; intros Hn; rewrite Hn in E; discriminate.
Qed.

Lemma str_of_int_inj (a b : Z) : str_of_int a = str_of_int b → a = b.
Proof.
  unfold str_of_int. intros E.
  destruct (to_int_not_nil a) as [Ha1 Ha2].
  destruct (to_int_not_nil b) as [Hb1 Hb2].
  pose proof (DecimalString.NilZero.isi _ Ha1 Ha2) as Ia.
  pose proof (DecimalString.NilZero.isi _ Hb1 Hb2) as Ib.
  rewrite E, Ib in Ia. injection Ia as Ia.
  rewrite <- (DecimalZ.of_to a), <- (DecimalZ.of_to b). by rewrite Ia.
Qed.

End StringFacts.

(** ** NetworkTraffic: more of what the methods compute *)

Module NetworkTrafficMoreFacts.
Import NetworkTraffic NetworkTrafficFacts.
Local Open Scope Z_scope.
Implicit Types (h : list obj) (a b c l : loc) (u d : Z).

Lemma iadd_op_run h a b ua da ub db :
  h !! a = Some (Traffic ua da) → h !! b = Some (Traffic ub db) →
  iadd a b h = (Return a, <[a := Traffic (ua + ub) (da + db)]> h).
Proof.
  intros Ha Hb. pose proof (iadd_run h a b ua da ub db Ha Hb) as Hi.
  revert Hi. unfold iadd. run. by intros ->.
Qed.

Lemma repr_run h a ua da :
  h !! a = Some (Traffic ua da) →
  __repr__ a h
  = (Return ("NetworkTraffic(upload=" +:+ str_of_int ua +:+ ", download="
             +:+ str_of_int da +:+ ")"), h).
Proof.
  intros Ha. unfold __repr__, get_upload, get_download. run.
  rewrite Ha. simpl. by rewrite Ha.
Qed.

(** [total = total + r] for each [r]: the value is the running sum. *)
Lemma add_all_value h total (rs : list loc) (fs : list (Z * Z)) u0 d0 :
  h !! total = Some (Traffic u0 d0) →
  Forall2 (λ r f, h !! r = Some (Traffic f.1 f.2)) rs fs →
  value_of (add_all total rs) h
  = Some (u0 + foldr Z.add 0 (fs.*1), d0 + foldr Z.add 0 (fs.*2)).
Proof.
  intros Ht Hall. revert h total u0 d0 fs Ht Hall.
  induction rs as [|r rs IH]; intros h total u0 d0 fs Ht Hall.
  - apply Forall2_nil_inv_l in Hall as ->. unfold value_of, fields. simpl.
    run. rewrite Ht. do 2 f_equal; lia.
  - apply Forall2_cons_inv_l in Hall as ([u d] & fs' & Hr & Hall & ->).
    simpl in Hr.
    specialize (IH (h ++ [Traffic (u0 + u) (d0 + d)]) (length h)
                  (u0 + u) (d0 + d) fs' (HeapFacts.lookup_fresh _ _)).
    pose proof (value_of_add h total r u0 d0 u d Ht Hr) as Hadd.
    revert IH Hadd. unfold value_of. simpl. run. intros IH ->.
    rewrite IH.
    + by rewrite <- !Z.add_assoc.
    + eapply Forall2_impl; [exact Hall|]. intros x y Hx.
      by apply HeapFacts.lookup_old.
Qed.

(** [total += r] for each [r], none of them [total] itself. *)
Lemma iadd_all_run h total (rs : list loc) (fs : list (Z * Z)) u0 d0 :
  h !! total = Some (Traffic u0 d0) → total ∉ rs →
  Forall2 (λ r f, h !! r = Some (Traffic f.1 f.2)) rs fs →
  iadd_all total rs h
  = (Return total,
     <[total := Traffic (u0 + foldr Z.add 0 (fs.*1))
                        (d0 + foldr Z.add 0 (fs.*2))]> h).
Proof.
  intros Ht Hni Hall. revert h u0 d0 fs Ht Hall.
  induction rs as [|r rs IH]; intros h u0 d0 fs Ht Hall.
  - apply Forall2_nil_inv_l in Hall as ->. simpl. run.
    rewrite !Z.add_0_r. by rewrite list_insert_id.
  - apply Forall2_cons_inv_l in Hall as ([u d] & fs' & Hr & Hall & ->).
    simpl in Hr. apply not_elem_of_cons in Hni as [Hne Hni].
    pose proof (lookup_lt_Some _ _ _ Ht) as Hlt.
    specialize (IH Hni (<[total := Traffic (u0 + u) (d0 + d)]> h)
                  (u0 + u) (d0 + d) fs').
    pose proof (iadd_op_run h total r u0 d0 u d Ht Hr) as Hi.
    revert IH Hi. simpl. run. intros IH ->. rewrite IH.
    + rewrite list_insert_insert_eq. by rewrite <- !Z.add_assoc.
    + by apply list_lookup_insert_eq.
    + clear IH. induction Hall as [|x y xs ys Hx Hall IHa]; [constructor|].
      apply not_elem_of_cons in Hni as [Hnx Hni].
      constructor; [|by apply IHa].
      by rewrite list_lookup_insert_ne.
Qed.

End NetworkTrafficMoreFacts.

(** ** NetworkTraffic: further properties *)

Module NetworkTrafficProps.
Import Stdlib.Strings.Ascii.
Import NetworkTraffic NetworkTrafficFacts NetworkTrafficMoreFacts.
Local Open Scope Z_scope.



(** X16. Adding a list of NetworkTraffic objects into a total in place, none
    of them the total itself, leaves in the total its fields plus the sums
    of theirs, returns the total, and writes no other object; adding them
    one by one with [+] gives a new object with the same fields. *)
Theorem accumulation_sums (h : list obj) (total : loc) (rs : list loc)
    (fs : list (Z * Z)) (u0 d0 : Z) :
  h !! total = Some (Traffic u0 d0) → total ∉ rs →
  Forall2 (λ r f, h !! r = Some (Traffic f.1 f.2)) rs fs →
  ∃ h',
    iadd_all total rs h = (Return total, h')
    ∧ fields h' total
      = Some (u0 + foldr Z.add 0 (fs.*1), d0 + foldr Z.add 0 (fs.*2))
    ∧ (∀ l, l ≠ total → h' !! l = h !! l)
    ∧ value_of (add_all total rs) h = fields h' total.
Proof.
  intros Ht Hni Hall. eexists.
  split; [by eapply iadd_all_run|].
  assert (Hf : fields (<[total := Traffic (u0 + foldr Z.add 0 (fs.*1))
                                    (d0 + foldr Z.add 0 (fs.*2))]> h) total
               = Some (u0 + foldr Z.add 0 (fs.*1),
                       d0 + foldr Z.add 0 (fs.*2))).
  { unfold fields. by rewrite (HeapFacts.lookup_insert_same _ _ _ _ Ht). }
  split; [done|]. split; [intros l Hl; by rewrite list_lookup_insert_ne|].
  rewrite Hf. by eapply add_all_value.
Qed.

Lemma accumulation_sums_witness :
  ∃ h',
    iadd_all 0%nat [1%nat; 2%nat] [Traffic 0 0; Traffic 100 200; Traffic 50 150]
    = (Return 0%nat, h')
    ∧ fields h' 0%nat
      = Some (0 + foldr Z.add 0 ([(100, 200); (50, 150)].*1),
              0 + foldr Z.add 0 ([(100, 200); (50, 150)].*2))
    ∧ (∀ l, l ≠ 0%nat →
         h' !! l = [Traffic 0 0; Traffic 100 200; Traffic 50 150] !! l)
    ∧ value_of (add_all 0%nat [1%nat; 2%nat])
        [Traffic 0 0; Traffic 100 200; Traffic 50 150]
      = fields h' 0%nat.
Proof.
  apply (accumulation_sums [Traffic 0 0; Traffic 100 200; Traffic 50 150]
           0%nat [1%nat; 2%nat] [(100, 200); (50, 150)] 0 0).
  - reflexivity.
  - intros Hin. apply elem_of_cons in Hin as [Hin | Hin]; [discriminate|].
    apply list_elem_of_singleton in Hin. discriminate.
  - repeat constructor.
Defined.

(** X17. [repr] prints the two fields in decimal between fixed words, and
    two objects print the same exactly when their fields are the same. *)
Theorem repr_determines_fields (h : list obj) (a b : loc)
    (ua da ub db : Z) :
  h !! a = Some (Traffic ua da) → h !! b = Some (Traffic ub db) →
  ∃ sa sb,
    __repr__ a h = (Return sa, h) ∧ __repr__ b h = (Return sb, h)
    ∧ sa = "NetworkTraffic(upload=" +:+ str_of_int ua +:+ ", download="
           +:+ str_of_int da +:+ ")"
    ∧ (sa = sb ↔ ua = ub ∧ da = db).
Proof.
  intros Ha Hb. eexists _, _.
  split; [by apply repr_run|]. split; [by apply repr_run|].
  split; [done|]. split; [|by intros [-> ->]].
  intros E. apply StringFacts.append_inj_l in E.
  apply (StringFacts.append_sep_inj ","%char _ _
           (" download=" +:+ str_of_int da +:+ ")")
           (" download=" +:+ str_of_int db +:+ ")")) in E as [Eu E].
  - apply StringFacts.append_inj_l in E.
    apply (StringFacts.append_sep_inj ")"%char _ _ "" "") in E as [Ed _].
    + split; by apply StringFacts.str_of_int_inj.
    + eapply Forall_impl; [apply StringFacts.chars_str_of_int|].
      by intros x [_ ?].
    + eapply Forall_impl; [apply StringFacts.chars_str_of_int|].
      by intros x [_ ?].
  - eapply Forall_impl; [apply StringFacts.chars_str_of_int|].
    by intros x [? _].
  - eapply Forall_impl; [apply StringFacts.chars_str_of_int|].
    by intros x [? _].
Qed.

Lemma repr_determines_fields_witness :
  ∃ sa sb,
    __repr__ 0%nat [Traffic 100 200; Traffic (-5) 0]
    = (Return sa, [Traffic 100 200; Traffic (-5) 0])
    ∧ __repr__ 1%nat [Traffic 100 200; Traffic (-5) 0]
      = (Return sb, [Traffic 100 200; Traffic (-5) 0])
    ∧ sa = "NetworkTraffic(upload=" +:+ str_of_int 100 +:+ ", download="
           +:+ str_of_int 200 +:+ ")"
    ∧ (sa = sb ↔ 100 = -5 ∧ 200 = 0).
Proof.
  apply (repr_determines_fields [Traffic 100 200; Traffic (-5) 0]
           0%nat 1%nat 100 200 (-5) 0); reflexivity.
Defined.

End NetworkTrafficProps.

(** ** LookupDict: further properties *)

Module LookupDictProps.
Import LookupDict.

(** X18. Attributes are read one by one: setting an attribute leaves the
    lookup of every other key as it was, and no run of item assignments
    changes any lookup or the [repr]. *)
Theorem attributes_independent (self : instance) (attr key : string)
    (value default : pyval) (its : list (string * pyval)) :
  attr ≠ key →
  get (__setattr__ self attr value) key default = get self key default
  ∧ __getitem__ (__setattr__ self attr value) key = __getitem__ self key
  ∧ get (foldl (λ t p, __setitem__ t p.1 p.2) self its) key default
    = get self key default
  ∧ __getitem__ (foldl (λ t p, __setitem__ t p.1 p.2) self its) key
    = __getitem__ self key
  ∧ __repr__ (foldl (λ t p, __setitem__ t p.1 p.2) self its)
    = __repr__ self.
Proof.
  intros Hne.
  assert (Hd : __dict__ (foldl (λ t p, __setitem__ t p.1 p.2) self its)
               = __dict__ self).
  { revert self. induction its as [|p its IH]; intros self; simpl; [done|].
    by rewrite IH. }
  unfold get, __getitem__, __repr__, PyDict.get. rewrite Hd. simpl.
  by rewrite (PyDictFacts.lookup_set_ne _ _ _ value Hne).
Qed.

Lemma attributes_independent_witness :
  get (__setattr__ (new (PyStr "status_codes")) "ok" (PyInt 200))
    "name" PyNone
  = get (new (PyStr "status_codes")) "name" PyNone.
Proof.
  refine (proj1 (attributes_independent (new (PyStr "status_codes"))
                   "ok" "name" (PyInt 200) PyNone [] _)).
  discriminate.
Defined.

(** X19. The [repr] of a table shows its name as [str] prints it, follows a
    later assignment to [name], and two tables named by strings print the
    same only if the names are the same; a table named [None] and one named
    "None" print alike. *)
Theorem repr_shows_name (n n' : pyval) (s1 s2 : string) (self : instance) :
  __repr__ (new n) = Return ("<lookup '" +:+ str_of n +:+ "'>")
  ∧ __repr__ (__setattr__ self "name" n')
    = Return ("<lookup '" +:+ str_of n' +:+ "'>")
  ∧ (__repr__ (new (PyStr s1)) = __repr__ (new (PyStr s2)) ↔ s1 = s2)
  ∧ __repr__ (new PyNone) = __repr__ (new (PyStr "None")).
Proof.
  split; [done|]. split.
  { unfold __repr__, __setattr__. simpl.
    by rewrite PyDictFacts.lookup_set_eq. }
  split; [|done]. split; [|by intros ->].
  unfold __repr__. simpl. intros [= E].
  by apply (StringFacts.append_inj_r s1 s2 "'>").
Qed.

End LookupDictProps.
